(** * IXHttpClient: a shallow embedding of [ixwebsocket/IXHttpClient.cpp]

    The development follows the source file from top to bottom:

    - byte strings, decimal and hexadecimal stream output, and the
      formatted stream input of the C++ standard library that the
      client relies on ([operator<<], [operator>>], [sscanf]);
    - [urlEncode] and [serializeHttpParameters];
    - the collaborators declared outside the file (socket, url parser,
      header parser, zlib) as interfaces;
    - [HttpClient::request] with its instance lock, redirect recursion,
      body framing, chunked decoder and gzip stage;
    - the verb entry points;
    - the worker thread [HttpClient::run] as a transition system. *)

From Stdlib Require Import String Ascii List ZArith NArith Bool Lia.
Import ListNotations.

Local Open Scope string_scope.
Local Open Scope Z_scope.

(** ** Bytes and text *)

Module Text.

Definition CR : ascii := ascii_of_nat 13.
Definition LF : ascii := ascii_of_nat 10.
Definition CRLF : string := String CR (String LF EmptyString).
(** [std::endl] writes a newline. *)
Definition endl : string := String LF EmptyString.

Definition code (c : ascii) : Z := Z.of_N (N_of_ascii c).

Definition size (s : string) : Z := Z.of_nat (String.length s).

(** [<cctype>], "C" locale. *)
Definition isdigit (c : ascii) : bool :=
  (48 <=? code c) && (code c <=? 57).
Definition isupper (c : ascii) : bool :=
  (65 <=? code c) && (code c <=? 90).
Definition islower (c : ascii) : bool :=
  (97 <=? code c) && (code c <=? 122).
Definition isalnum (c : ascii) : bool :=
  isdigit c || isupper c || islower c.
Definition isspace (c : ascii) : bool :=
  (code c =? 32) || ((9 <=? code c) && (code c <=? 13)).

Fixpoint skipws (s : string) : string :=
  match s with
  | String c rest => if isspace c then skipws rest else s
  | EmptyString => EmptyString
  end.

(** Does [p] start [s]?  If so, what follows it. *)
Fixpoint strip_prefix (p s : string) : option string :=
  match p, s with
  | EmptyString, _ => Some s
  | String a p', String b s' =>
      if Ascii.eqb a b then strip_prefix p' s' else None
  | String _ _, EmptyString => None
  end.

Definition starts_with (p s : string) : bool :=
  match strip_prefix p s with Some _ => true | None => false end.

(** [needle] occurs somewhere in [hay]. *)
Fixpoint contains (needle hay : string) : bool :=
  starts_with needle hay
  || match hay with
     | String _ rest => contains needle rest
     | EmptyString => false
     end.

(** Value of a digit in the given base, if it is one. *)
Definition digit_value (base : Z) (c : ascii) : option Z :=
  let v :=
    if isdigit c then code c - 48
    else if (97 <=? code c) && (code c <=? 102) then code c - 87
    else if (65 <=? code c) && (code c <=? 70) then code c - 55
    else 99 in
  if v <? base then Some v else None.

(** Longest run of digits at the front of [s]: their number, their
    value (most significant first) and what follows. *)
Fixpoint digits_from (base : Z) (s : string) (count : nat) (acc : Z)
  : nat * Z * string :=
  match s with
  | String c rest =>
      match digit_value base c with
      | Some d => digits_from base rest (S count) (acc * base + d)
      | None => (count, acc, s)
      end
  | EmptyString => (count, acc, s)
  end.

(** *** Stream output of integers *)

Definition digit_char (uppercase : bool) (d : Z) : ascii :=
  if d <? 10 then ascii_of_N (Z.to_N (48 + d))
  else if uppercase then ascii_of_N (Z.to_N (55 + d))
  else ascii_of_N (Z.to_N (87 + d)).

Fixpoint put_digits (fuel : nat) (base : Z) (uppercase : bool)
                    (n : Z) (acc : string) : string :=
  match fuel with
  | O => acc
  | S fuel' =>
      let acc' := String (digit_char uppercase (n mod base)) acc in
      if n / base =? 0 then acc'
      else put_digits fuel' base uppercase (n / base) acc'
  end.

(** Digits of a non-negative integer; one digit per bit is always
    enough room. *)
Definition put_unsigned (base : Z) (uppercase : bool) (n : Z) : string :=
  put_digits (S (Z.to_nat (Z.log2 n))) base uppercase n EmptyString.

(** [os << n] in decimal. *)
Definition put_dec (n : Z) : string :=
  if n <? 0 then String "-" (put_unsigned 10 false (- n))
  else put_unsigned 10 false n.

Fixpoint fill_string (n : nat) (c : ascii) : string :=
  match n with
  | O => EmptyString
  | S n' => String c (fill_string n' c)
  end.

(** [std::setw(w)] with fill character [fill] and the default
    right adjustment. *)
Definition setw (w : nat) (fill : ascii) (s : string) : string :=
  fill_string (w - String.length s) fill ++ s.

End Text.

Import Text.

(** ** Formatted stream input

    [std::stringstream] keeps its error state between uses:
    [ss.str(text)] replaces the buffer and leaves the state alone, and
    nothing in the file calls [clear()].  An inserter or extractor on a
    stream that is not [good()] does nothing but set [failbit]; in
    particular the extractor does not write its variable. *)

Module Stream.

Inductive extraction : Type :=
| NotWritten
    (** the sentry failed: stream not good, or nothing but white
        space left; the variable keeps whatever it held *)
| Written (v : Z) (good : bool)
    (** [v] was stored; [good] tells whether the stream is still
        good afterwards (neither [failbit] nor [eofbit]) *).

Definition sign_of (s : string) : bool * string :=
  match s with
  | String "-" rest => (true, rest)
  | String "+" rest => (false, rest)
  | _ => (false, s)
  end.

Definition strip_0x (s : string) : string :=
  match s with
  | String "0" (String "x" rest) => rest
  | String "0" (String "X" rest) => rest
  | _ => s
  end.

Definition nonempty (s : string) : bool :=
  match s with EmptyString => false | _ => true end.

Definition UINT64_MAX : Z := 2 ^ 64 - 1.
Definition SSIZE_MAX : Z := 2 ^ 63 - 1.
Definition SSIZE_MIN : Z := - 2 ^ 63.

(** [ss >> v] for [uint64_t v] after [ss << std::hex << text] on a
    good stream: white space is skipped, then an optional sign, an
    optional [0x], and hexadecimal digits.  Without a digit the
    value stored is 0 and [failbit] is set; a value that does not
    fit stores the maximum and sets [failbit]; a minus sign negates
    modulo 2^64 (as [strtoull] does).  Reaching the end of the
    buffer sets [eofbit]. *)
Definition get_hex_u64 (text : string) : extraction :=
  match skipws text with
  | EmptyString => NotWritten
  | field =>
      let '(negative, s1) := sign_of field in
      let '(count, v, rest) := digits_from 16 (strip_0x s1) O 0 in
      match count with
      | O => Written 0 false
      | S _ =>
          if v >? UINT64_MAX then Written UINT64_MAX false
          else Written (if negative then (- v) mod 2 ^ 64 else v)
                       (nonempty rest)
      end
  end.

(** [ss >> v] for [ssize_t v], decimal. *)
Definition get_dec_ssize (text : string) : extraction :=
  match skipws text with
  | EmptyString => NotWritten
  | field =>
      let '(negative, s1) := sign_of field in
      let '(count, v, rest) := digits_from 10 s1 O 0 in
      match count with
      | O => Written 0 false
      | S _ =>
          let sv := if negative then - v else v in
          if sv >? SSIZE_MAX then Written SSIZE_MAX false
          else if sv <? SSIZE_MIN then Written SSIZE_MIN false
          else Written sv (nonempty rest)
      end
  end.

Definition LONG_MAX : Z := 2 ^ 63 - 1.
Definition LONG_MIN : Z := - 2 ^ 63.

(** Conversion of a [long] to [int] by dropping the high bits. *)
Definition to_int (n : Z) : Z := (n + 2 ^ 31) mod 2 ^ 32 - 2 ^ 31.

(** [sscanf(line, "HTTP/1.1 %d", &code)]: the literal text, any
    amount of white space, then a decimal [int].  [Some code] when
    the call returns 1.  (A number outside the range of [int] has no
    defined result in C; the model does what glibc does: [strtol]
    clamps it to a [long], which is stored as an [int].) *)
Definition sscanf_status (line : string) : option Z :=
  match strip_prefix "HTTP/1.1" line with
  | None => None
  | Some after =>
      let '(negative, s1) := sign_of (skipws after) in
      let '(count, v, _) := digits_from 10 s1 O 0 in
      match count with
      | O => None
      | S _ =>
          let sv := if negative then - v else v in
          Some (to_int (Z.max LONG_MIN (Z.min LONG_MAX sv)))
      end
  end.

(** A well-formed hexadecimal integer: one digit or more and nothing
    else. *)
Fixpoint all_hex_digits (s : string) : bool :=
  match s with
  | EmptyString => true
  | String c rest =>
      match digit_value 16 c with
      | Some _ => all_hex_digits rest
      | None => false
      end
  end.

Definition well_formed_hex (line : string) : bool :=
  nonempty line && all_hex_digits line.

(** A line whose first character other than white space is neither a
    hexadecimal digit nor a sign. *)
Definition starts_without_digit (line : string) : bool :=
  match skipws line with
  | EmptyString => false
  | String c _ =>
      match digit_value 16 c with
      | Some _ => false
      | None => negb (Ascii.eqb c "-" || Ascii.eqb c "+")
      end
  end.

End Stream.

(** ** [urlEncode] and [serializeHttpParameters] *)

Module Url.

(** The test of the loop of [urlEncode]; [isalnum] is that of the
    "C" locale, in which no byte above 127 is alphanumeric. *)
Definition is_unreserved (c : ascii) : bool :=
  isalnum c
  || Ascii.eqb c "-" || Ascii.eqb c "_" || Ascii.eqb c "." || Ascii.eqb c "~".

(** One turn of the loop of [urlEncode]: what is appended to
    [escaped] for the byte [c].  The stream was set up with
    [fill('0')] and [std::hex]; [std::setw(2)] applies to the integer
    that follows it. *)
Definition urlEncode_byte (c : ascii) : string :=
  if is_unreserved c then String c EmptyString
  else String "%" (setw 2 "0" (put_unsigned 16 true (code c))).

Fixpoint urlEncode (value : string) : string :=
  match value with
  | EmptyString => EmptyString
  | String c rest => urlEncode_byte c ++ urlEncode rest
  end.

(** [HttpParameters], in iteration order. *)
Definition HttpParameters : Type := list (string * string).

Fixpoint serialize_from (i count : Z) (ps : HttpParameters) : string :=
  match ps with
  | [] => EmptyString
  | (k, v) :: rest =>
      urlEncode k ++ "=" ++ urlEncode v
      ++ (if i <? count - 1 then "&" else EmptyString)
      ++ serialize_from (i + 1) count rest
  end.

Definition serializeHttpParameters (httpParameters : HttpParameters) : string :=
  serialize_from 0 (Z.of_nat (List.length httpParameters)) httpParameters.

(** The inverse the round trip is stated against: a [%] followed by
    two hexadecimal digits is the byte with that value, everything
    else stands for itself. *)
Fixpoint percentDecode (s : string) : string :=
  match s with
  | EmptyString => EmptyString
  | String c tl =>
      match c, tl with
      | "%"%char, String h (String l rest) =>
          match digit_value 16 h, digit_value 16 l with
          | Some a, Some b =>
              String (ascii_of_N (Z.to_N (16 * a + b))) (percentDecode rest)
          | _, _ => String c (percentDecode tl)
          end
      | _, _ => String c (percentDecode tl)
      end
  end.

Definition is_upper_hex (c : ascii) : bool :=
  isdigit c || ((65 <=? code c) && (code c <=? 70)).

(** The two shapes a byte is written in, decided by running the loop
    body on each of the 256 bytes. *)
Definition byte_shape_ok (c : ascii) : bool :=
  if is_unreserved c
  then String.eqb (urlEncode_byte c) (String c EmptyString)
  else
    match urlEncode_byte c with
    | String "%" (String h (String l EmptyString)) =>
        is_upper_hex h && is_upper_hex l
        && match digit_value 16 h, digit_value 16 l with
           | Some a, Some b => (a =? code c / 16) && (b =? code c mod 16)
           | _, _ => false
           end
    | _ => false
    end.

End Url.

(** ** Collaborators declared outside [IXHttpClient.cpp] *)

Module Http.

Import Stream.

Inductive HttpErrorCode : Type :=
| Ok
| CannotConnect
| UrlMalformed
| CannotCreateSocket
| SendError
| CannotReadStatusLine
| MissingStatus
| HeaderParsingError
| MissingLocation
| TooManyRedirects
| ChunkReadError
| CannotReadBody
| Gzip.

(** [WebSocketHttpHeaders]: the entries in iteration order.  How two
    keys compare is decided where the type is declared
    ([Platform.key_eqb] below). *)
Definition WebSocketHttpHeaders : Type := list (string * string).

(** The cancellation predicates of this file are made by
    [makeCancellationRequestWithTimeout] from a timeout and a flag
    that is never raised; what a predicate will answer is the
    transport's business, so a predicate is identified with the
    timeout it was made from. *)
Definition CancellationRequest : Type := Z.

Definition OnProgressCallback : Type := option (Z -> Z -> bool).

Record HttpRequestArgs : Type := {
  url : string;
  verb : string;
  body : string;
  extraHeaders : WebSocketHttpHeaders;
  connectTimeout : Z;
  transferTimeout : Z;
  followRedirects : bool;
  maxRedirects : Z;
  verbose : bool;
  compress : bool;
  logger : bool;  (** is a logger installed? what it is given is kept in [logged] *)
  onProgressCallback : OnProgressCallback
}.

Record HttpResponse : Type := {
  statusCode : Z;
  errorCode : HttpErrorCode;
  headers : WebSocketHttpHeaders;
  payload : string;
  errorMsg : string;
  uploadSize : Z;
  downloadSize : Z
}.

Record UrlParts : Type := {
  protocol : string;
  host : string;
  path : string;
  query : string;
  port : Z
}.

(** The [Socket] interface, on a socket state [S]: every operation
    returns what the C++ method returns, and the socket afterwards. *)
Class Socket (S : Type) : Type := {
  connect : string -> Z -> CancellationRequest -> S -> (bool * string) * S;
  writeBytes : string -> CancellationRequest -> S -> bool * S;
  readLine : CancellationRequest -> S -> (bool * string) * S;
  readBytes : Z -> OnProgressCallback -> CancellationRequest -> S
              -> (bool * string) * S
}.

(** Everything else the file uses and does not define. *)
Class Platform (S : Type) : Type := {
  (** key comparison of [WebSocketHttpHeaders] *)
  key_eqb : string -> string -> bool;
  key_eqb_refl : forall k, key_eqb k k = true;
  (** [UrlParser::parse] *)
  UrlParser_parse : string -> option UrlParts;
  (** [createSocket(tls, errorMsg)]: the socket (or null) and what
      is left in [errorMsg] *)
  createSocket : bool -> option S * string;
  (** [parseHttpHeaders(socket, isCancellationRequested)] *)
  parseHttpHeaders : CancellationRequest -> S
                     -> (bool * WebSocketHttpHeaders) * S;
  (** [std::string::max_size()] *)
  string_max_size : Z;
  (** zlib: a [z_stream] out of [inflateInit2] with the given window
      bits ([None] when it does not return [Z_OK]); the stream with
      [next_in] and [avail_in] set; and one call of [inflate] with
      [avail_out] bytes of room and a flush mode, which returns its
      code and the bytes it produced. *)
  z_stream : Type;
  inflateInit2 : Z -> option z_stream;
  set_input : string -> Z -> z_stream -> z_stream;
  inflate : z_stream -> Z -> Z -> (Z * string) * z_stream
}.

(** [<zlib.h>] *)
Definition MAX_WBITS : Z := 15.
Definition Z_SYNC_FLUSH : Z := 2.
Definition Z_NEED_DICT : Z := 2.
Definition Z_DATA_ERROR : Z := -3.
Definition Z_MEM_ERROR : Z := -4.

(** What a call of [request] comes to. *)
Inductive outcome : Type :=
| Returned (response : HttpResponse)
| Deadlock
    (** [_mutex], a [std::mutex], locked by the thread that holds it *)
| Undefined
    (** a variable read that was never written *)
| LengthError
    (** [std::length_error] out of [std::string::reserve] *)
| OutOfFuel.

(** The state a call works on: the instance's [_mutex] and [_socket],
    and the text handed to the logger so far. *)
Record HttpClient (S : Type) : Type := {
  _mutex : bool;  (** locked? *)
  _socket : option S;
  logged : list string
}.
Arguments _mutex {S} _.
Arguments _socket {S} _.
Arguments logged {S} _.

Definition kPost : string := "POST".
Definition kGet : string := "GET".
Definition kHead : string := "HEAD".
Definition kDel : string := "DEL".
Definition kPut : string := "PUT".

Definition to_size_t (n : Z) : Z := n mod 2 ^ 64.

Section Engine.

Context {Sock : Type} {socket_ops : Socket Sock} {platform : Platform Sock}.

(** *** [WebSocketHttpHeaders] operations *)

(** [h.find(k)]: the value when it is not [h.end()]. *)
Fixpoint find (k : string) (h : WebSocketHttpHeaders) : option string :=
  match h with
  | [] => None
  | (k', v) :: rest => if key_eqb k' k then Some v else find k rest
  end.

(** [h[k]]: the value, and the map afterwards: a key that is
    missing is inserted with an empty value.  (Where the map puts
    it in its iteration order is not observed by this file; the
    model puts it last.) *)
Definition at_key (k : string) (h : WebSocketHttpHeaders)
  : string * WebSocketHttpHeaders :=
  match find k h with
  | Some v => (v, h)
  | None => (EmptyString, (h ++ [(k, EmptyString)])%list)
  end.

(** *** State helpers *)

Definition set_socket (s : option Sock) (c : HttpClient Sock) : HttpClient Sock :=
  {| _mutex := _mutex c; _socket := s; logged := logged c |}.

Definition set_mutex (b : bool) (c : HttpClient Sock) : HttpClient Sock :=
  {| _mutex := b; _socket := _socket c; logged := logged c |}.

(** [HttpClient::log] *)
Definition log (msg : string) (args : HttpRequestArgs) (c : HttpClient Sock)
  : HttpClient Sock :=
  if logger args
  then {| _mutex := _mutex c; _socket := _socket c;
          logged := (logged c ++ [msg])%list |}
  else c.

Definition log_if (cond : bool) (msg : string) (args : HttpRequestArgs)
                  (c : HttpClient Sock) : HttpClient Sock :=
  if cond then log msg args c else c.

(** *** Building the request (lines 145-190) *)

Definition header_line (kv : string * string) : string :=
  fst kv ++ ": " ++ snd kv ++ CRLF.

Definition buildRequest (verb host path body : string)
                        (args : HttpRequestArgs) : string :=
  (** [headers] is the local of [request], still empty here *)
  let headers : WebSocketHttpHeaders := [] in
  verb ++ " " ++ path ++ " HTTP/1.1" ++ CRLF
  ++ "Host: " ++ host ++ CRLF
  ++ (if compress args then "Accept-Encoding: gzip" ++ CRLF else EmptyString)
  ++ String.concat EmptyString (map header_line (extraHeaders args))
  ++ (match find "Accept" headers with
      | None => "Accept: */*" ++ CRLF
      | Some _ => EmptyString
      end)
  ++ (match find "User-Agent" headers with
      | None => "User-Agent: ixwebsocket" ++ CRLF
      | Some _ => EmptyString
      end)
  ++ (if String.eqb verb kPost || String.eqb verb kPut
      then "Content-Length: " ++ put_dec (size body) ++ CRLF
           ++ (match find "Content-Type" (extraHeaders args) with
               | None =>
                   "Content-Type: application/x-www-form-urlencoded" ++ CRLF
               | Some _ => EmptyString
               end)
           ++ CRLF
           ++ body
      else CRLF).

Definition mkResponse (code : Z) (e : HttpErrorCode)
                      (h : WebSocketHttpHeaders) (payload errorMsg : string)
                      (uploadSize downloadSize : Z) : HttpResponse :=
  {| statusCode := code; errorCode := e; headers := h;
     payload := payload; errorMsg := errorMsg;
     uploadSize := uploadSize; downloadSize := downloadSize |}.

(** *** From the url to the parsed headers (lines 116-273) *)

(** What the rest of [request] uses of it. *)
Record Exchange : Type := {
  x_code : Z;
  x_headers : WebSocketHttpHeaders;
  x_uploadSize : Z;
  x_errorMsg : string;  (** the outer [errorMsg], as [createSocket] left it *)
  x_cancel : CancellationRequest;
  x_socket : Sock
}.

Definition sending_message (verb : string) (u : UrlParts) (req : string)
  : string :=
  "Sending " ++ verb ++ " request " ++ "to " ++ host u ++ ":"
  ++ put_dec (port u) ++ endl
  ++ "request size: " ++ put_dec (size req) ++ " bytes" ++ endl
  ++ "=============" ++ endl
  ++ req
  ++ "=============" ++ endl
  ++ endl.

Definition exchange (url verb body : string) (args : HttpRequestArgs)
                    (c : HttpClient Sock)
  : (HttpResponse + Exchange) * HttpClient Sock :=
  let uploadSize := 0 in
  let downloadSize := 0 in
  let code := 0 in
  let headers : WebSocketHttpHeaders := [] in
  let payload := EmptyString in
  match UrlParser_parse url with
  | None =>
      (inl (mkResponse code UrlMalformed headers payload
                       ("Cannot parse url: " ++ url)
                       uploadSize downloadSize), c)
  | Some u =>
      let tls := String.eqb (protocol u) "https" in
      match createSocket tls with
      | (None, errorMsg) =>
          (inl (mkResponse code CannotCreateSocket headers payload
                           errorMsg uploadSize downloadSize),
           set_socket None c)
      | (Some s0, errorMsg) =>
          let req := buildRequest verb (host u) (path u) body args in
          let '((success, errMsg), s1) :=
            connect (host u) (port u) (connectTimeout args) s0 in
          if negb success
          then (inl (mkResponse code CannotConnect headers payload
                                ("Cannot connect to url: " ++ url
                                 ++ " / error : " ++ errMsg)
                                uploadSize downloadSize),
                set_socket (Some s1) c)
          else
            let isCancellationRequested := transferTimeout args in
            let c := log_if (verbose args)
                            (sending_message verb u req) args c in
            let '(written, s2) :=
              writeBytes req isCancellationRequested s1 in
            if negb written
            then (inl (mkResponse code SendError headers payload
                                  "Cannot send request"
                                  uploadSize downloadSize),
                  set_socket (Some s2) c)
            else
              let uploadSize := size req in
              let '((lineValid, line), s3) :=
                readLine isCancellationRequested s2 in
              if negb lineValid
              then (inl (mkResponse code CannotReadStatusLine headers
                                    payload "Cannot retrieve status line"
                                    uploadSize downloadSize),
                    set_socket (Some s3) c)
              else
                let c := log_if (verbose args)
                                ("Status line " ++ line) args c in
                match sscanf_status line with
                | None =>
                    (inl (mkResponse
                            code MissingStatus headers payload
                            "Cannot parse response code from status line"
                            uploadSize downloadSize),
                     set_socket (Some s3) c)
                | Some code =>
                    let '((headersValid, headers), s4) :=
                      parseHttpHeaders isCancellationRequested s3 in
                    if negb headersValid
                    then (inl (mkResponse code HeaderParsingError headers
                                          payload
                                          "Cannot parse http headers"
                                          uploadSize downloadSize),
                          set_socket (Some s4) c)
                    else
                      (inr {| x_code := code; x_headers := headers;
                              x_uploadSize := uploadSize;
                              x_errorMsg := errorMsg;
                              x_cancel := isCancellationRequested;
                              x_socket := s4 |},
                       set_socket (Some s4) c)
                end
      end
  end.

(** *** [gzipInflate] (lines 513-560) *)

Definition kBufferSize : Z := Z.shiftl 1 14.

(** The [do ... while (inflateState.avail_out == 0)] loop; [None]
    when the fuel runs out first. *)
Fixpoint inflate_loop (fuel : nat) (inflateState : z_stream) (out : string)
  : option (bool * string) :=
  match fuel with
  | O => None
  | S fuel' =>
      let '((ret, produced), inflateState) :=
        inflate inflateState kBufferSize Z_SYNC_FLUSH in
      if (ret =? Z_NEED_DICT) || (ret =? Z_DATA_ERROR) || (ret =? Z_MEM_ERROR)
      then Some (false, out)
      else
        let avail_out := kBufferSize - size produced in
        let out := out ++ produced in
        if avail_out =? 0 then inflate_loop fuel' inflateState out
        else Some (true, out)
  end.

(** [(uInt) in.size()] *)
Definition to_uInt (n : Z) : Z := n mod 2 ^ 32.

Definition gzipInflate (fuel : nat) (input out : string)
  : option (bool * string) :=
  match inflateInit2 (16 + MAX_WBITS) with
  | None => Some (false, out)
  | Some inflateState =>
      let inflateState := set_input input (to_uInt (size input)) inflateState in
      inflate_loop fuel inflateState out
  end.

(** *** The chunked decoder (lines 332-385)

    [ss_good] is the state of the decoder's own [stringstream]
    (fresh when the loop starts), [payload] what was accumulated.
    The result is either how the call ends ([inl]) or the body once
    the loop is left ([inr]).  [std::string::reserve] is modelled
    as far as its [length_error] goes (running out of memory is
    not). *)
Fixpoint readChunks (fuel : nat) (args : HttpRequestArgs) (x : Exchange)
                    (ss_good : bool) (payload : string)
                    (s : Sock) (c : HttpClient Sock)
  : (outcome + string) * Sock * HttpClient Sock :=
  match fuel with
  | O => (inl OutOfFuel, s, c)
  | S fuel' =>
      let failed (payload errorMsg : string) :=
        Returned (mkResponse (x_code x) ChunkReadError (x_headers x)
                             payload errorMsg (x_uploadSize x) 0) in
      let '((lineValid, line), s) := readLine (x_cancel x) s in
      if negb lineValid
      then (inl (failed payload (x_errorMsg x)), s, c)
      else
        (** the buffer is emptied, then [ss << std::hex << line; ss >> chunkSize;] *)
        match (if ss_good then get_hex_u64 line else NotWritten) with
        | NotWritten => (inl Undefined, s, c)
        | Written chunkSize ss_good =>
            let c := log_if (verbose args)
                            ("Reading " ++ put_dec chunkSize ++ " bytes"
                             ++ endl) args c in
            if to_size_t (size payload + to_size_t chunkSize)
               >? string_max_size
            then (inl LengthError, s, c)
            else
              let '((chunkValid, chunk), s) :=
                readBytes (to_size_t chunkSize) (onProgressCallback args)
                          (x_cancel x) s in
              if negb chunkValid
              then (inl (failed payload "Cannot read chunk"), s, c)
              else
                let payload := payload ++ chunk in
                let '((lineValid, _), s) := readLine (x_cancel x) s in
                if negb lineValid
                then (inl (failed payload (x_errorMsg x)), s, c)
                else if chunkSize =? 0 then (inr payload, s, c)
                else readChunks fuel' args x ss_good payload s c
        end
  end.

(** *** Body framing (lines 307-397) *)

(** [ssize_t contentLength = -1; ss << text; ss >> contentLength;]
    after the buffer is emptied,
    on the stream the request was built in, which is good. *)
Definition parseContentLength (text : string) : Z :=
  match get_dec_ssize text with
  | NotWritten => -1
  | Written v _ => v
  end.

Definition isChunked (h : WebSocketHttpHeaders) : bool :=
  match find "Transfer-Encoding" h with
  | Some v => String.eqb v "chunked"
  | None => false
  end.

Definition readBody (fuel : nat) (args : HttpRequestArgs) (x : Exchange)
                    (c : HttpClient Sock)
  : (outcome + string) * Sock * HttpClient Sock :=
  let s := x_socket x in
  let payload := EmptyString in
  match find "Content-Length" (x_headers x) with
  | Some text =>
      let contentLength := parseContentLength text in
      if to_size_t contentLength >? string_max_size
      then (inl LengthError, s, c)
      else
        let '((chunkValid, chunk), s) :=
          readBytes (to_size_t contentLength) (onProgressCallback args)
                    (x_cancel x) s in
        if negb chunkValid
        then (inl (Returned
                     (mkResponse (x_code x) ChunkReadError (x_headers x)
                                 payload "Cannot read chunk"
                                 (x_uploadSize x) 0)), s, c)
        else (inr (payload ++ chunk), s, c)
  | None =>
      if isChunked (x_headers x)
      then readChunks fuel args x true payload s c
      else if x_code x =? 204
      then (inr payload, s, c)
      else (inl (Returned
                   (mkResponse (x_code x) CannotReadBody (x_headers x)
                               payload "Cannot read http body"
                               (x_uploadSize x) 0)), s, c)
  end.

(** *** Decompression and the final response (lines 399-417) *)

Definition finish (fuel : nat) (x : Exchange) (payload : string) : outcome :=
  let downloadSize := size payload in
  let '(encoding, headers) := at_key "Content-Encoding" (x_headers x) in
  if String.eqb encoding "gzip"
  then
    match gzipInflate fuel payload EmptyString with
    | None => OutOfFuel
    | Some (false, _) =>
        Returned (mkResponse (x_code x) Gzip headers payload
                             "Error decompressing payload"
                             (x_uploadSize x) downloadSize)
    | Some (true, decompressedPayload) =>
        Returned (mkResponse (x_code x) Ok headers decompressedPayload
                             EmptyString (x_uploadSize x) downloadSize)
    end
  else
    Returned (mkResponse (x_code x) Ok headers payload EmptyString
                         (x_uploadSize x) downloadSize).

(** *** [HttpClient::request] *)

(** Leaving [request]: the [lock_guard] releases [_mutex] on a
    return and when an exception unwinds the frame. *)
Definition leave (o : outcome) (c : HttpClient Sock) : outcome * HttpClient Sock :=
  match o with
  | Returned _ | LengthError => (o, set_mutex false c)
  | _ => (o, c)
  end.

Definition isRedirect (code : Z) (args : HttpRequestArgs) : bool :=
  ((301 <=? code) && (code <=? 308)) && followRedirects args.

Fixpoint request (fuel : nat) (url verb body : string)
                 (args : HttpRequestArgs) (redirects : Z) (c : HttpClient Sock)
  : outcome * HttpClient Sock :=
  match fuel with
  | O => (OutOfFuel, c)
  | S fuel' =>
      (** [std::lock_guard<std::mutex> lock(_mutex);] *)
      if _mutex c then (Deadlock, c)
      else
        let c := set_mutex true c in
        match exchange url verb body args c with
        | (inl response, c) => leave (Returned response) c
        | (inr x, c) =>
            let early (e : HttpErrorCode) (errorMsg : string) :=
              Returned (mkResponse (x_code x) e (x_headers x) EmptyString
                                   errorMsg (x_uploadSize x) 0) in
            if isRedirect (x_code x) args
            then
              match find "Location" (x_headers x) with
              | None =>
                  leave (early MissingLocation
                               "Missing location header for redirect") c
              | Some location =>
                  if redirects >=? maxRedirects args
                  then leave (early TooManyRedirects
                                    ("Too many redirects: "
                                     ++ put_dec redirects)) c
                  else
                    let '(o, c) :=
                      request fuel' location verb body args
                              (redirects + 1) c in
                    leave o c
              end
            else if String.eqb verb "HEAD"
            then leave (early Ok EmptyString) c
            else
              match readBody fuel' args x c with
              | (inl o, s, c) => leave o (set_socket (Some s) c)
              | (inr payload, s, c) =>
                  leave (finish fuel' x payload) (set_socket (Some s) c)
              end
        end
  end.

(** *** The verb entry points (lines 420-464); [redirects]
    defaults to 0. *)

Definition get (fuel : nat) (url : string) (args : HttpRequestArgs) :=
  request fuel url kGet EmptyString args 0.

Definition head (fuel : nat) (url : string) (args : HttpRequestArgs) :=
  request fuel url kHead EmptyString args 0.

Definition del (fuel : nat) (url : string) (args : HttpRequestArgs) :=
  request fuel url kDel EmptyString args 0.

Definition post_parameters (fuel : nat) (url : string)
                           (httpParameters : Url.HttpParameters)
                           (args : HttpRequestArgs) :=
  request fuel url kPost (Url.serializeHttpParameters httpParameters) args 0.

Definition post (fuel : nat) (url body : string) (args : HttpRequestArgs) :=
  request fuel url kPost body args 0.

Definition put_parameters (fuel : nat) (url : string)
                          (httpParameters : Url.HttpParameters)
                          (args : HttpRequestArgs) :=
  request fuel url kPut (Url.serializeHttpParameters httpParameters) args 0.

Definition put (fuel : nat) (url body : string) (args : HttpRequestArgs) :=
  request fuel url kPut body args 0.

(** *** The vocabulary of the properties below *)

(** The ways a body can be framed, in the order the response is
    examined for them. *)
Inductive Framing : Type :=
| ByContentLength (text : string)  (** the value of [Content-Length] *)
| ByChunks
| NoContent
| NoFraming.

Definition selectFraming (code : Z) (h : WebSocketHttpHeaders) : Framing :=
  match find "Content-Length" h with
  | Some text => ByContentLength text
  | None =>
      if isChunked h then ByChunks
      else if code =? 204 then NoContent
      else NoFraming
  end.

(** A response with the fields every error return of [request] after
    the headers shares. *)
Definition failure (x : Exchange) (e : HttpErrorCode)
                   (payload errorMsg : string) : HttpResponse :=
  mkResponse (x_code x) e (x_headers x) payload errorMsg (x_uploadSize x) 0.

(** How [request] ends once the body stage is through: with the
    stage's own outcome, or with the final response made of the body. *)
Definition conclude (fuel : nat) (x : Exchange)
                    (stage : (outcome + string) * Sock * HttpClient Sock)
  : outcome * HttpClient Sock :=
  match stage with
  | (inl o, s, c) => leave o (set_socket (Some s) c)
  | (inr payload, s, c) => leave (finish fuel x payload) (set_socket (Some s) c)
  end.

End Engine.

End Http.

(** ** A scripted transport

    A concrete [Socket] and [Platform] on which [request] runs to a
    value: a table says which bytes the server of each host sends. *)

Module Wire.

Import Http.

Record Conn : Type := {
  servers : list (string * string);  (** host, and the bytes it answers with *)
  inbound : string;                  (** bytes not read yet *)
  sent : string                      (** bytes written so far *)
}.

Fixpoint lookup (k : string) (table : list (string * string)) : option string :=
  match table with
  | [] => None
  | (k', v) :: rest => if String.eqb k' k then Some v else lookup k rest
  end.

(** Splits at the first line terminator: the line without it, and
    what follows. *)
Fixpoint take_line (s : string) : option (string * string) :=
  match s with
  | EmptyString => None
  | String c rest =>
      match strip_prefix CRLF s with
      | Some after => Some (EmptyString, after)
      | None =>
          match take_line rest with
          | Some (line, after) => Some (String c line, after)
          | None => None
          end
      end
  end.

Fixpoint take_bytes (n : nat) (s : string) : option (string * string) :=
  match n, s with
  | O, _ => Some (EmptyString, s)
  | S n', String c rest =>
      match take_bytes n' rest with
      | Some (data, after) => Some (String c data, after)
      | None => None
      end
  | S _, EmptyString => None
  end.

(** Modelled from the spec: the transport session (class [Socket],
    declared outside the source file).  [connect] succeeds for the
    hosts of the table; [writeBytes] always succeeds; [readLine]
    returns the next line without its terminator and fails when no
    complete line is left; [readBytes n] returns exactly [n] bytes or
    fails. *)
#[export] Instance conn_socket : Socket Conn := {
  connect host port _ s :=
    match lookup host (servers s) with
    | Some bytes =>
        ((true, EmptyString),
         {| servers := servers s; inbound := bytes; sent := sent s |})
    | None => ((false, "unreachable"), s)
    end;
  writeBytes data _ s :=
    (true, {| servers := servers s; inbound := inbound s;
              sent := sent s ++ data |});
  readLine _ s :=
    match take_line (inbound s) with
    | Some (line, after) =>
        ((true, line),
         {| servers := servers s; inbound := after; sent := sent s |})
    | None =>
        ((false, inbound s),
         {| servers := servers s; inbound := EmptyString; sent := sent s |})
    end;
  readBytes n _ _ s :=
    match take_bytes (Z.to_nat n) (inbound s) with
    | Some (data, after) =>
        ((true, data),
         {| servers := servers s; inbound := after; sent := sent s |})
    | None =>
        ((false, inbound s),
         {| servers := servers s; inbound := EmptyString; sent := sent s |})
    end
}.

(** Splits [Key: Value] at the first colon. *)
Fixpoint split_header (line : string) : option (string * string) :=
  match line with
  | EmptyString => None
  | String ":" (String " " value) => Some (EmptyString, value)
  | String ":" value => Some (EmptyString, value)
  | String c rest =>
      match split_header rest with
      | Some (key, value) => Some (String c key, value)
      | None => None
      end
  end.

(** [headers[key] = value] with case-sensitive keys. *)
Fixpoint assign (key value : string) (h : WebSocketHttpHeaders)
  : WebSocketHttpHeaders :=
  match h with
  | [] => [(key, value)]
  | (k, v) :: rest =>
      if String.eqb k key then (k, value) :: rest
      else (k, v) :: assign key value rest
  end.

Fixpoint parse_header_lines (fuel : nat) (h : WebSocketHttpHeaders) (s : Conn)
  : (bool * WebSocketHttpHeaders) * Conn :=
  match fuel with
  | O => ((false, h), s)
  | S fuel' =>
      match readLine 0 s with
      | ((false, _), s') => ((false, h), s')
      | ((true, EmptyString), s') => ((true, h), s')
      | ((true, line), s') =>
          match split_header line with
          | Some (key, value) =>
              parse_header_lines fuel' (assign key value h) s'
          | None => parse_header_lines fuel' h s'
          end
      end
  end.

(** Modelled from the spec: [UrlParser::parse], declared outside the
    source file; the scheme, the host up to the first slash, and the
    path from there on. *)
Fixpoint split_host (s : string) : string * string :=
  match s with
  | EmptyString => (EmptyString, "/")
  | String "/" _ => (EmptyString, s)
  | String c rest => let '(h, p) := split_host rest in (String c h, p)
  end.

Definition parse_url (url : string) : option UrlParts :=
  match strip_prefix "http://" url, strip_prefix "https://" url with
  | Some rest, _ =>
      let '(h, p) := split_host rest in
      Some {| protocol := "http"; host := h; path := p;
              query := EmptyString; port := 80 |}
  | None, Some rest =>
      let '(h, p) := split_host rest in
      Some {| protocol := "https"; host := h; path := p;
              query := EmptyString; port := 443 |}
  | None, None => None
  end.

(** A stand-in for zlib, enough to run the gzip stage: the
    "compressed" form of a text is the text after a one-byte tag
    [z]; anything else is a data error. *)
Definition fake_inflate (zs : string) (avail_out flush : Z)
  : (Z * string) * string :=
  match zs with
  | String "z" rest =>
      match take_bytes (Z.to_nat avail_out) rest with
      | Some (produced, after) => ((0, produced), String "z" after)
      | None => ((1, rest), EmptyString)
      end
  | _ => ((Z_DATA_ERROR, EmptyString), zs)
  end.

(** Modelled from the spec: the header parser ([parseHttpHeaders],
    declared outside the source file) reads lines up to an empty one,
    the last value of a key wins, and a failed line read fails it.
    Keys are case-sensitive. *)
Definition platform_of (table : list (string * string)) : Platform Conn := {|
  key_eqb := String.eqb;
  key_eqb_refl := String.eqb_refl;
  UrlParser_parse := parse_url;
  createSocket tls :=
    (Some {| servers := table; inbound := EmptyString; sent := EmptyString |},
     EmptyString);
  parseHttpHeaders _ s := parse_header_lines (String.length (inbound s)) [] s;
  string_max_size := 2 ^ 62;
  z_stream := string;
  inflateInit2 _ := Some EmptyString;
  set_input input avail_in _ :=
    match take_bytes (Z.to_nat avail_in) input with
    | Some (available, _) => available
    | None => input
    end;
  inflate := fake_inflate
|}.

Definition idle : HttpClient Conn :=
  {| _mutex := false; _socket := None; logged := [] |}.

(** [createRequest] leaves everything but url and verb at the
    defaults of [HttpRequestArgs]; the runs below set what they
    need. *)
Definition args_with (extra : WebSocketHttpHeaders) (follow : bool)
                     (maxRedirects : Z) : HttpRequestArgs :=
  {| url := EmptyString; verb := EmptyString; body := EmptyString;
     extraHeaders := extra; connectTimeout := 60; transferTimeout := 1800;
     followRedirects := follow; maxRedirects := maxRedirects;
     verbose := false; compress := false; logger := false;
     onProgressCallback := None |}.

Definition lines (ls : list string) : string :=
  String.concat EmptyString (map (fun l => l ++ CRLF) ls).

(** *** Servers for the runs below *)

Definition ok_hello : string :=
  lines ["HTTP/1.1 200 OK"; "Content-Length: 5"; EmptyString] ++ "hello".

Definition moved_to (location : string) : string :=
  lines ["HTTP/1.1 301 Moved Permanently"; "Location: " ++ location; EmptyString].

(** One redirect: [a] sends the client to [b], which answers. *)
Definition chain1 : list (string * string) :=
  [("a", moved_to "http://b/"); ("b", ok_hello)].

(** Two redirects: [a] to [b] to [d], which answers. *)
Definition chain2 : list (string * string) :=
  [("a", moved_to "http://b/"); ("b", moved_to "http://d/"); ("d", ok_hello)].

Definition plain : list (string * string) := [("a", ok_hello)].

(** A chunked body whose first size line is [zz]. *)
Definition bad_chunk : list (string * string) :=
  [("a", lines ["HTTP/1.1 200 OK"; "Transfer-Encoding: chunked"; EmptyString;
                "zz"; EmptyString])].

(** A chunked body that stops before any size line. *)
Definition cut_chunk : list (string * string) :=
  [("a", lines ["HTTP/1.1 200 OK"; "Transfer-Encoding: chunked"; EmptyString])].

(** A response that announces a length and the chunked coding at
    once, with status 204. *)
Definition both_framings : list (string * string) :=
  [("a", lines ["HTTP/1.1 204 No Content"; "Content-Length: 5";
                "Transfer-Encoding: chunked"; EmptyString] ++ "hello")].

(** A chunked body of two chunks, each size followed by a chunk
    extension, and a gzip-coded body for the stand-in codec. *)
Definition two_chunks : list (string * string) :=
  [("a", lines ["HTTP/1.1 200 OK"; "Transfer-Encoding: chunked"; EmptyString;
                "5;x"; "hello"; "3;x"; "abc"; "0"; EmptyString])].

Definition zipped : list (string * string) :=
  [("a", lines ["HTTP/1.1 200 OK"; "Content-Encoding: gzip";
                "Content-Length: 6"; EmptyString] ++ "zhello")].

Definition bytes_sent (c : HttpClient Conn) : string :=
  match _socket c with
  | Some s => sent s
  | None => EmptyString
  end.

Definition bytes_unread (c : HttpClient Conn) : string :=
  match _socket c with
  | Some s => inbound s
  | None => EmptyString
  end.

(** The decoder's view of a response once the headers are parsed,
    for the bytes [rest] still to come. *)
Definition conn_with (rest : string) : Conn :=
  {| servers := []; inbound := rest; sent := EmptyString |}.

Definition chunked_exchange (rest : string) : Exchange (Sock := Conn) :=
  {| x_code := 200;
     x_headers := [("Transfer-Encoding", "chunked")];
     x_uploadSize := 66;
     x_errorMsg := EmptyString;
     x_cancel := 1800;
     x_socket := conn_with rest |}.

End Wire.

(** ** The asynchronous side: [performRequest], [run], the destructor

    The worker thread is a transition system over its program points;
    the other threads act on the same state by enqueueing and by
    starting the shutdown.  Accesses to [_stop] and to the queue are
    taken one at a time, in any interleaving. *)

Module Async.

Section Dispatcher.

(** A queue entry: the pair of request arguments and callback. *)
Variable Task : Type.

(** Does [request] come back for this entry? *)
Variable returns : Task -> bool.

(** Where the worker is in [run]. *)
Inductive pc : Type :=
| AtWait                 (** line 82: [while (!_stop && _queue.empty())] *)
| AtStopCheck            (** line 87: [if (_stop) return;] *)
| AtPop                  (** lines 89-93: [front()], [pop()] *)
| AtStopCheck2 (t : Task) (** line 96: [if (_stop) return;] *)
| AtRequest (t : Task)   (** line 98: [request(...)] *)
| AtCallback (t : Task)  (** line 99: [onResponseCallback(response)] *)
| AtStopCheck3           (** line 101: [if (_stop) return;] *)
| Hung                   (** inside a [request] that does not come back *)
| Crashed                (** [front()] of an empty queue *)
| Exited.

Record state : Type := {
  _async : bool;
  _stop : bool;
  _queue : list Task;
  worker : pc;
  requested : list Task;  (** entries whose request was executed, latest first *)
  called : list Task      (** entries whose callback was invoked, latest first *)
}.

Definition goto (p : pc) (s : state) : state :=
  {| _async := _async s; _stop := _stop s; _queue := _queue s;
     worker := p; requested := requested s; called := called s |}.

(** One step of [run]. *)
Definition work (s : state) : state :=
  match worker s with
  | AtWait =>
      if negb (_stop s) && match _queue s with [] => true | _ => false end
      then s  (** [_condition.wait(lock)] *)
      else goto AtStopCheck s
  | AtStopCheck => if _stop s then goto Exited s else goto AtPop s
  | AtPop =>
      match _queue s with
      | [] => goto Crashed s
      | p :: rest =>
          {| _async := _async s; _stop := _stop s; _queue := rest;
             worker := AtStopCheck2 p;
             requested := requested s; called := called s |}
      end
  | AtStopCheck2 t => if _stop s then goto Exited s else goto (AtRequest t) s
  | AtRequest t =>
      {| _async := _async s; _stop := _stop s; _queue := _queue s;
         worker := if returns t then AtCallback t else Hung;
         requested := t :: requested s; called := called s |}
  | AtCallback t =>
      {| _async := _async s; _stop := _stop s; _queue := _queue s;
         worker := AtStopCheck3;
         requested := requested s; called := t :: called s |}
  | AtStopCheck3 => if _stop s then goto Exited s else goto AtWait s
  | Hung => s
  | Crashed => s
  | Exited => s
  end.

(** [performRequest]: the value returned and the state after. *)
Definition performRequest (t : Task) (s : state) : bool * state :=
  if negb (_async s) then (false, s)
  else (true,
        {| _async := _async s; _stop := _stop s;
           _queue := _queue s ++ [t];
           worker := worker s;
           requested := requested s; called := called s |}).

(** The destructor up to [_thread.join()]: the thread is joinable
    when the client was made asynchronous. *)
Definition shutdown (s : state) : state :=
  if negb (_async s) then s
  else {| _async := _async s; _stop := true; _queue := _queue s;
          worker := worker s;
          requested := requested s; called := called s |}.

(** What can happen next, and runs. *)
Inductive action : Type :=
| Work
| Enqueue (t : Task)
| Shutdown.

Definition step (a : action) (s : state) : state :=
  match a with
  | Work => work s
  | Enqueue t => snd (performRequest t s)
  | Shutdown => shutdown s
  end.

Fixpoint run (trace : list action) (s : state) : state :=
  match trace with
  | [] => s
  | a :: rest => run rest (step a s)
  end.

(** The constructor of an asynchronous client, the worker about
    to take the queue lock for the first time. *)
Definition started : state :=
  {| _async := true; _stop := false; _queue := [];
     worker := AtWait; requested := []; called := [] |}.

(** The entry the worker has taken past its last stop check, if
    any: the only one whose request or callback is still to come
    without another pop. *)
Definition in_flight (s : state) : option Task :=
  match worker s with
  | AtRequest t | AtCallback t => Some t
  | _ => None
  end.

Definition awaits_request (s : state) : option Task :=
  match worker s with
  | AtRequest t => Some t
  | _ => None
  end.

Fixpoint count_work (trace : list action) : nat :=
  match trace with
  | [] => O
  | Work :: rest => S (count_work rest)
  | _ :: rest => count_work rest
  end.

(** What holds of every state a run reaches from [started]: the
    worker gets to [front()] only with an entry in the queue. *)
Definition wf (s : state) : Prop :=
  (worker s = AtPop -> _queue s <> [])
  /\ (worker s = AtStopCheck -> _stop s = false -> _queue s <> [])
  /\ worker s <> Crashed.

(** How many steps of its own the worker is from leaving [run] once
    [_stop] is set. *)
Definition distance (p : pc) : nat :=
  match p with
  | AtRequest _ => 3
  | AtWait | AtPop | AtCallback _ => 2
  | AtStopCheck | AtStopCheck2 _ | AtStopCheck3 => 1
  | Hung | Crashed | Exited => 0
  end.

End Dispatcher.

Arguments AtWait {Task}.
Arguments AtStopCheck {Task}.
Arguments AtPop {Task}.
Arguments AtStopCheck2 {Task} t.
Arguments AtRequest {Task} t.
Arguments AtCallback {Task} t.
Arguments AtStopCheck3 {Task}.
Arguments Hung {Task}.
Arguments Crashed {Task}.
Arguments Exited {Task}.
Arguments _async {Task} s.
Arguments _stop {Task} s.
Arguments _queue {Task} s.
Arguments worker {Task} s.
Arguments requested {Task} s.
Arguments called {Task} s.
Arguments goto {Task} p s.
Arguments work {Task} returns s.
Arguments performRequest {Task} t s.
Arguments shutdown {Task} s.
Arguments Work {Task}.
Arguments Enqueue {Task} t.
Arguments Shutdown {Task}.
Arguments step {Task} returns a s.
Arguments run {Task} returns trace s.
Arguments started {Task}.
Arguments in_flight {Task} s.
Arguments awaits_request {Task} s.
Arguments count_work {Task} trace.
Arguments wf {Task} s.
Arguments distance {Task} p.

End Async.

(** ** Reading a parameter string back

    The vocabulary for what [urlEncode] and [serializeHttpParameters]
    guarantee to whoever receives their output. *)

Module Query.

Import Url.

Fixpoint all_chars (p : ascii -> bool) (s : string) : bool :=
  match s with
  | EmptyString => true
  | String c rest => p c && all_chars p rest
  end.

Fixpoint occurs (c : ascii) (s : string) : bool :=
  match s with
  | EmptyString => false
  | String c' rest => Ascii.eqb c' c || occurs c rest
  end.

(** The bytes of [s] that [urlEncode] escapes. *)
Fixpoint count_escaped (s : string) : nat :=
  match s with
  | EmptyString => O
  | String c rest =>
      if is_unreserved c then count_escaped rest else S (count_escaped rest)
  end.

(** The alphabet of the output of [urlEncode]. *)
Definition in_alphabet (c : ascii) : bool :=
  is_unreserved c || Ascii.eqb c "%".

Definition byte_alphabet_ok (c : ascii) : bool :=
  all_chars in_alphabet (urlEncode_byte c)
  && Nat.eqb (String.length (urlEncode_byte c))
             (if is_unreserved c then 1 else 3).

(** Splits at the first [sep]: what is before it, and what is after
    it if there is one. *)
Fixpoint split_first (sep : ascii) (s : string) : string * option string :=
  match s with
  | EmptyString => (EmptyString, None)
  | String c rest =>
      if Ascii.eqb c sep then (EmptyString, Some rest)
      else let '(before, after) := split_first sep rest in
           (String c before, after)
  end.

(** Splits at every [sep]. *)
Fixpoint split_on (sep : ascii) (s : string) : list string :=
  match s with
  | EmptyString => [EmptyString]
  | String c rest =>
      if Ascii.eqb c sep then EmptyString :: split_on sep rest
      else match split_on sep rest with
           | seg :: segs => String c seg :: segs
           | [] => [String c EmptyString]
           end
  end.

Definition parse_pair (segment : string) : string * string :=
  match split_first "=" segment with
  | (k, Some v) => (percentDecode k, percentDecode v)
  | (k, None) => (percentDecode k, EmptyString)
  end.

(** The reader of an [application/x-www-form-urlencoded] body: pairs
    are separated by [&], key and value by the first [=], and both
    are percent-decoded. *)
Definition parseQuery (s : string) : HttpParameters :=
  match s with
  | EmptyString => []
  | _ => map parse_pair (split_on "&" s)
  end.

End Query.

(** ** Words for what a response reports *)

Module Report.

Import Http.

(** The error codes [request] returns before a status code was
    parsed. *)
Definition before_status (e : HttpErrorCode) : bool :=
  match e with
  | UrlMalformed | CannotCreateSocket | CannotConnect | SendError
  | CannotReadStatusLine | MissingStatus => true
  | _ => false
  end.

(** The error codes [request] returns before the request was
    written. *)
Definition before_write (e : HttpErrorCode) : bool :=
  match e with
  | UrlMalformed | CannotCreateSocket | CannotConnect | SendError => true
  | _ => false
  end.

(** The codes of [inflate] that [gzipInflate] takes for a failure. *)
Definition fatal (ret : Z) : bool :=
  (ret =? Z_NEED_DICT) || (ret =? Z_DATA_ERROR) || (ret =? Z_MEM_ERROR).

(** Does a call log anything at all? *)
Definition quiet (args : HttpRequestArgs) : bool :=
  negb (verbose args && logger args).

(** How a call leaves the mutex, by its outcome. *)
Definition holds_lock (o : outcome) : bool :=
  match o with
  | Returned _ | LengthError => false
  | Deadlock | Undefined | OutOfFuel => true
  end.

(** A text whose first character other than white space is neither
    a decimal digit nor a sign. *)
Definition starts_without_decimal (text : string) : bool :=
  match skipws text with
  | EmptyString => false
  | String c _ =>
      match digit_value 10 c with
      | Some _ => false
      | None => negb (Ascii.eqb c "-" || Ascii.eqb c "+")
      end
  end.

End Report.

(** ** The life of a client: constructor, runs, what was enqueued *)

Module Lifecycle.

Import Async.

Local Open Scope list_scope.
Local Open Scope nat_scope.

Section Dispatcher.

Context {Task : Type}.

(** [HttpClient::HttpClient(bool async)]: the flags, an empty queue,
    and the worker thread when [async] is set; a synchronous client
    has no worker. *)
Definition created (async : bool) : state Task :=
  {| _async := async; _stop := false; _queue := [];
     worker := if async then AtWait else Exited;
     requested := []; called := [] |}.

(** The entries passed to [performRequest] along a run, in order. *)
Fixpoint enqueued (trace : list (action Task)) : list Task :=
  match trace with
  | [] => []
  | Enqueue t :: rest => t :: enqueued rest
  | _ :: rest => enqueued rest
  end.

(** The entry the worker has popped and whose request it has not
    executed yet. *)
Definition in_hand (s : state Task) : list Task :=
  match worker s with
  | AtStopCheck2 t | AtRequest t => [t]
  | _ => []
  end.

(** Does [request] come back for an entry? *)
Variable returns : Task -> bool.

(** What a run from [started] keeps true of the entries enqueued so
    far, [all]. *)
Definition history (all : list Task) (s : state Task) : Prop :=
  _async s = true
  /\ exists dropped,
      all = rev (requested s) ++ in_hand s ++ dropped ++ _queue s
      /\ (dropped = [] \/ (worker s = Exited /\ length dropped = 1)).

(** What a run from [started] keeps true of the callbacks. *)
Definition answered (s : state Task) : Prop :=
  match worker s with
  | AtCallback t => requested s = t :: called s
  | Hung => exists t, requested s = t :: called s /\ returns t = false
  | _ => called s = requested s
  end.

(** How many steps of its own the worker is from waiting on an
    empty queue, when nothing stops it: seven for each turn of the
    loop of [run]. *)
Definition remaining (s : state Task) : nat :=
  match worker s with
  | AtWait => 7 * length (_queue s)
  | AtStopCheck => 7 * length (_queue s) - 1
  | AtPop => 7 * length (_queue s) - 2
  | AtStopCheck2 _ => 7 * length (_queue s) + 4
  | AtRequest _ => 7 * length (_queue s) + 3
  | AtCallback _ => 7 * length (_queue s) + 2
  | AtStopCheck3 => 7 * length (_queue s) + 1
  | Hung | Crashed | Exited => 0
  end.

(** What a run without shutdown keeps true when every request comes
    back: the worker is in its loop, and has an entry to pop when it
    is past the wait. *)
Definition live (s : state Task) : Prop :=
  _async s = true
  /\ _stop s = false
  /\ match worker s with
     | AtStopCheck | AtPop => _queue s <> []
     | Hung | Crashed | Exited => False
     | _ => True
     end
  /\ forall t, In t (in_hand s ++ _queue s) -> returns t = true.

End Dispatcher.

Arguments created {Task} async.
Arguments enqueued {Task} trace.
Arguments in_hand {Task} s.
Arguments history {Task} all s.
Arguments answered {Task} returns s.
Arguments remaining {Task} s.
Arguments live {Task} returns s.

End Lifecycle.

(** ** The command-line client: [ws/ws_http_client.cpp]

    The three helpers of the file.  (Its entry point
    [ws_http_client_main] writes to the terminal from callbacks that
    the transport invokes and to the file system, and is not
    embedded.) *)

Module Tool.

Import Http Query.

(** The tokens of [while (std::getline(tokenStream, token))]: the text
    between line feeds; a text that ends with a line feed has no empty
    token after it. *)
Fixpoint getlines (data : string) : list string :=
  match data with
  | EmptyString => []
  | String c rest =>
      if Ascii.eqb c LF then EmptyString :: getlines rest
      else match getlines rest with
           | [] => [String c EmptyString]
           | token :: tokens => String c token :: tokens
           end
  end.

(** [s.rfind(ch)]: the index of the last [ch], [None] for [npos]. *)
Fixpoint rfind (ch : ascii) (s : string) : option nat :=
  match s with
  | EmptyString => None
  | String c rest =>
      match rfind ch rest with
      | Some i => Some (S i)
      | None => if Ascii.eqb c ch then Some O else None
      end
  end.

(** [s.substr(pos)]: the text from [pos] on; [None] stands for the
    [std::out_of_range] thrown when [pos] is beyond the size. *)
Fixpoint substr_from (pos : nat) (s : string) : option string :=
  match pos, s with
  | O, _ => Some s
  | S p, String _ rest => substr_from p rest
  | S _, EmptyString => None
  end.

(** [s.substr(0, n)] *)
Fixpoint substr_to (n : nat) (s : string) : string :=
  match n, s with
  | S p, String c rest => String c (substr_to p rest)
  | _, _ => EmptyString
  end.

(** [extractFilename] *)
Definition extractFilename (path : string) : option string :=
  match rfind "/" path with
  | Some idx => substr_from (idx + 1) path
  | None => Some path
  end.

(** What one turn of a parsing loop makes of its token. *)
Inductive parsed : Type :=
| Skipped                      (** [continue] *)
| Entry (key val : string)     (** [map[key] = val] *)
| OutOfRange.                  (** [substr] throws *)

(** The loop body of [parseHeaders]. *)
Definition header_of_line (token : string) : parsed :=
  match rfind ":" token with
  | None => Skipped
  | Some pos =>
      let key := substr_to pos token in
      match substr_from (pos + 2) token with
      | Some val => Entry key val
      | None => OutOfRange
      end
  end.

(** The loop body of [parsePostParameters]. *)
Definition parameter_of_line (token : string) : parsed :=
  match rfind "=" token with
  | None => Skipped
  | Some pos =>
      let key := substr_to pos token in
      match substr_from (pos + 1) token with
      | Some val => Entry key val
      | None => OutOfRange
      end
  end.

(** [map[key] = val] on an entry list whose keys compare by [same]:
    the value of the entry with that key is replaced, or an entry is
    added.  (Where a new entry goes in the iteration order is decided
    by the map's ordering, which the model does not follow: it puts
    the entry last.) *)
Fixpoint assign (same : string -> string -> bool) (key val : string)
                (m : list (string * string)) : list (string * string) :=
  match m with
  | [] => [(key, val)]
  | (k, v) :: rest =>
      if same k key then (k, val) :: rest
      else (k, v) :: assign same key val rest
  end.

(** A parsing loop: the map built (or [None] when a turn threw), and
    what was written to [std::cerr]. *)
Fixpoint parse_loop (line : string -> parsed)
                    (same : string -> string -> bool)
                    (tokens : list string)
                    (m : list (string * string)) (cerr : string)
  : option (list (string * string)) * string :=
  match tokens with
  | [] => (Some m, cerr)
  | token :: rest =>
      match line token with
      | Skipped => parse_loop line same rest m cerr
      | Entry key val =>
          parse_loop line same rest (assign same key val m)
                     (cerr ++ key ++ ": " ++ val ++ endl)
      | OutOfRange => (None, cerr)
      end
  end.

(** [parseHeaders]; the keys compare as the header map has it. *)
Definition parseHeaders {Sock : Type} {platform : Platform Sock}
                        (data : string)
  : option WebSocketHttpHeaders * string :=
  parse_loop header_of_line key_eqb (getlines data) [] EmptyString.

(** [parsePostParameters]; the keys of [HttpParameters] compare as
    strings. *)
Definition parsePostParameters (data : string)
  : option Url.HttpParameters * string :=
  parse_loop parameter_of_line String.eqb (getlines data) [] EmptyString.

Fixpoint lookup (k : string) (m : list (string * string)) : option string :=
  match m with
  | [] => None
  | (k', v) :: rest => if String.eqb k' k then Some v else lookup k rest
  end.

(** The value of the last line that has the key [k]. *)
Fixpoint last_value (line : string -> parsed) (k : string)
                    (tokens : list string) (found : option string)
  : option string :=
  match tokens with
  | [] => found
  | token :: rest =>
      match line token with
      | Entry key val =>
          last_value line k rest (if String.eqb key k then Some val else found)
      | _ => last_value line k rest found
      end
  end.

End Tool.

(** ** More servers for the scripted transport *)

Module Cases.

Import Http Wire.

(** A redirect without a [Location] header. *)
Definition no_location : list (string * string) :=
  [("a", lines ["HTTP/1.1 302 Found"; "Server: x"; EmptyString])].

Definition negative_length : list (string * string) :=
  [("a", lines ["HTTP/1.1 200 OK"; "Content-Length: -1"; EmptyString])].

Definition wordy_length : list (string * string) :=
  [("a", lines ["HTTP/1.1 200 OK"; "Content-Length: abc"; EmptyString]
         ++ "hello")].

(** A gzip-coded body that the stand-in codec rejects. *)
Definition broken_zip : list (string * string) :=
  [("a", lines ["HTTP/1.1 200 OK"; "Content-Encoding: gzip";
                "Content-Length: 5"; EmptyString] ++ "hello")].

(** A chunked body that breaks off inside its second chunk. *)
Definition cut_in_chunk : list (string * string) :=
  [("a", lines ["HTTP/1.1 200 OK"; "Transfer-Encoding: chunked"; EmptyString;
                "5;x"; "hello"; "9;x"; "abc"])].

(** A server that answers in HTTP/1.0. *)
Definition old_server : list (string * string) :=
  [("a", lines ["HTTP/1.0 200 OK"; "Content-Length: 0"; EmptyString])].

(** The bytes of a chunked body whose size lines are bare numbers. *)
Definition bare_sizes : list string := ["5"; "hello"; "3"; "abc"; "0"; EmptyString].

Definition loud (a : HttpRequestArgs) : HttpRequestArgs :=
  {| url := url a; verb := verb a; body := body a;
     extraHeaders := extraHeaders a;
     connectTimeout := connectTimeout a; transferTimeout := transferTimeout a;
     followRedirects := followRedirects a; maxRedirects := maxRedirects a;
     verbose := true; compress := compress a; logger := true;
     onProgressCallback := onProgressCallback a |}.

End Cases.

(** * Properties *)

(** ** Text *)

Module TextFacts.

Lemma starts_with_self (n rest : string) : starts_with n (n ++ rest) = true.
Proof.
  unfold starts_with.
  induction n as [|a n IH]; simpl; [reflexivity|].
  now rewrite Ascii.eqb_refl.
Qed.

Lemma contains_unfold (n hay : string) :
  contains n hay
  = starts_with n hay
    || match hay with
       | String _ rest => contains n rest
       | EmptyString => false
       end.
Proof. destruct hay; reflexivity. Qed.

Lemma contains_here (n rest : string) : contains n (n ++ rest) = true.
Proof. rewrite contains_unfold, starts_with_self. reflexivity. Qed.

Lemma contains_later (n before rest : string) :
  contains n rest = true -> contains n (before ++ rest) = true.
Proof.
  intros H. induction before as [|a b IH]; [exact H|].
  change (String a b ++ rest) with (String a (b ++ rest)).
  rewrite contains_unfold, IH. apply orb_true_r.
Qed.

Lemma append_assoc (a b c : string) : (a ++ b) ++ c = a ++ (b ++ c).
Proof. induction a; simpl; congruence. Qed.

End TextFacts.

(** ** [urlEncode] *)

Module UrlFacts.

Import Url.

Lemma byte_shape (c : ascii) : byte_shape_ok c = true.
Proof.
  destruct c as [[] [] [] [] [] [] [] []]; vm_compute; reflexivity.
Qed.

Lemma unreserved_byte (c : ascii) :
  is_unreserved c = true -> urlEncode_byte c = String c EmptyString.
Proof.
  intros H. pose proof (byte_shape c) as B. unfold byte_shape_ok in B.
  rewrite H in B. now apply String.eqb_eq.
Qed.

Lemma escaped_byte (c : ascii) :
  is_unreserved c = false ->
  exists h l,
    urlEncode_byte c = String "%" (String h (String l EmptyString))
    /\ is_upper_hex h = true /\ is_upper_hex l = true
    /\ digit_value 16 h = Some (code c / 16)
    /\ digit_value 16 l = Some (code c mod 16).
Proof.
  intros H. pose proof (byte_shape c) as B. unfold byte_shape_ok in B.
  rewrite H in B.
  destruct (urlEncode_byte c) as [|p [|h [|l [|]]]]; try discriminate;
    try (destruct p as [[] [] [] [] [] [] [] []]; discriminate).
  assert (p = "%"%char) as ->
      by (destruct p as [[] [] [] [] [] [] [] []]; try discriminate; reflexivity).
  exists h, l.
  apply andb_prop in B as [B D]. apply andb_prop in B as [Bh Bl].
  destruct (digit_value 16 h) as [a|]; [|discriminate].
  destruct (digit_value 16 l) as [b|]; [|discriminate].
  apply andb_prop in D as [Da Db].
  apply Z.eqb_eq in Da, Db. subst. auto.
Qed.

Lemma decode_byte (c : ascii) (rest : string) :
  percentDecode (urlEncode_byte c ++ rest) = String c (percentDecode rest).
Proof.
  destruct c as [[] [] [] [] [] [] [] []]; reflexivity.
Qed.

(** C7.  [urlEncode] copies an alphanumeric byte and each of
    [-], [_], [.], [~] unchanged, writes every other byte as [%]
    followed by exactly two upper-case hexadecimal digits, the high
    and the low half of its value, and percent-decoding the result
    gives back the input, for every byte sequence. *)
Theorem urlEncode_escapes_and_round_trips :
  (forall c,
      is_unreserved c = true
      <-> isalnum c = true
          \/ c = "-"%char \/ c = "_"%char \/ c = "."%char \/ c = "~"%char)
  /\ (forall c rest,
         is_unreserved c = true ->
         urlEncode (String c rest) = String c (urlEncode rest))
  /\ (forall c rest,
         is_unreserved c = false ->
         exists h l,
           urlEncode (String c rest)
           = String "%" (String h (String l (urlEncode rest)))
           /\ is_upper_hex h = true /\ is_upper_hex l = true
           /\ digit_value 16 h = Some (code c / 16)
           /\ digit_value 16 l = Some (code c mod 16))
  /\ (forall value, percentDecode (urlEncode value) = value).
Proof.
  split; [|split; [|split]].
  - intros c. unfold is_unreserved.
    rewrite !orb_true_iff, !Ascii.eqb_eq. tauto.
  - intros c rest H. simpl. now rewrite (unreserved_byte c H).
  - intros c rest H.
    destruct (escaped_byte c H) as (h & l & E & R).
    exists h, l. split; [|exact R]. simpl. now rewrite E.
  - induction value as [|c rest IH]; [reflexivity|].
    simpl. rewrite decode_byte. now rewrite IH.
Qed.

Lemma urlEncode_escapes_and_round_trips_witness :
  is_unreserved " " = false
  /\ (exists h l,
         urlEncode "a b" = String "a" (String "%" (String h (String l "b")))
         /\ digit_value 16 h = Some 2 /\ digit_value 16 l = Some 0)
  /\ percentDecode (urlEncode "a/b c~") = "a/b c~".
Proof.
  destruct urlEncode_escapes_and_round_trips as (_ & _ & Hescape & Hround).
  split; [reflexivity|]. split.
  - destruct (Hescape " "%char "b" eq_refl) as (h & l & E & _ & _ & Dh & Dl).
    exists h, l. split; [|split].
    + change (urlEncode "a b") with (String "a" (urlEncode " b")).
      now rewrite E.
    + exact Dh.
    + exact Dl.
  - apply Hround.
Defined.

End UrlFacts.

(** ** The request engine *)

Module HttpFacts.

Import Http TextFacts.

Ltac break_goal :=
  repeat match goal with
         | |- context [match ?x with _ => _ end] => destruct x eqn:?
         end.

Ltac break_in H :=
  repeat match type of H with
         | context [match ?x with _ => _ end] => destruct x eqn:?
         end.

Section Engine.

Context {Sock : Type} {socket_ops : Socket Sock} {platform : Platform Sock}.

(** *** The request text *)

Lemma find_empty (k : string) : find k [] = None.
Proof. reflexivity. Qed.

Lemma buildRequest_shape (verb host path body : string)
                         (args : HttpRequestArgs) :
  exists before after,
    buildRequest verb host path body args
    = before ++ ("Accept: */*" ++ CRLF)
             ++ ("User-Agent: ixwebsocket" ++ CRLF) ++ after
    /\ before
       = verb ++ " " ++ path ++ " HTTP/1.1" ++ CRLF
         ++ "Host: " ++ host ++ CRLF
         ++ (if compress args then "Accept-Encoding: gzip" ++ CRLF else EmptyString)
         ++ String.concat EmptyString (map header_line (extraHeaders args)).
Proof.
  eexists _, _. split; [|reflexivity].
  unfold buildRequest. rewrite !find_empty.
  rewrite !append_assoc. reflexivity.
Qed.

Lemma buildRequest_starts (verb host path body : string)
                          (args : HttpRequestArgs) :
  exists rest, buildRequest verb host path body args
               = (verb ++ " ") ++ path ++ " HTTP/1.1" ++ CRLF ++ rest.
Proof.
  unfold buildRequest. eexists. rewrite !append_assoc. reflexivity.
Qed.

(** *** The instance state through a call *)

Lemma log_if_mutex b msg args (c : HttpClient Sock) :
  _mutex (log_if b msg args c) = _mutex c.
Proof. unfold log_if, log. now destruct b, (logger args). Qed.

Lemma log_if_socket b msg args (c : HttpClient Sock) :
  _socket (log_if b msg args c) = _socket c.
Proof. unfold log_if, log. now destruct b, (logger args). Qed.

Lemma exchange_mutex url verb body args (c : HttpClient Sock) :
  _mutex (snd (exchange url verb body args c)) = _mutex c.
Proof.
  unfold exchange. break_goal; simpl; rewrite ?log_if_mutex; reflexivity.
Qed.

Lemma exchange_socket url verb body args (c c' : HttpClient Sock) x :
  exchange url verb body args c = (inr x, c') ->
  _socket c' = Some (x_socket x).
Proof.
  unfold exchange. intros H. break_in H; try discriminate.
  inversion H; subst. reflexivity.
Qed.

(** The lock is a [std::mutex]: a call that finds it held by its
    own thread never gets past the [lock_guard]. *)
Lemma request_held fuel url verb body args redirects (c : HttpClient Sock) :
  _mutex c = true ->
  request (S fuel) url verb body args redirects c = (Deadlock, c).
Proof. intros H. simpl. now rewrite H. Qed.

Lemma recursive_call_blocks fuel url verb body args redirects
      (c c' : HttpClient Sock) x location :
  _mutex c = false ->
  exchange url verb body args (set_mutex true c) = (inr x, c') ->
  isRedirect (x_code x) args = true ->
  find "Location" (x_headers x) = Some location ->
  redirects < maxRedirects args ->
  request (S (S fuel)) url verb body args redirects c = (Deadlock, c')
  /\ _mutex c' = true.
Proof.
  intros Hfree Hx Hredir Hloc Hdepth.
  assert (_mutex c' = true) as Hheld.
  { pose proof (exchange_mutex url verb body args (set_mutex true c)) as M.
    rewrite Hx in M. exact M. }
  split; [|exact Hheld].
  cbn [request]. rewrite Hfree, Hx, Hredir, Hloc.
  rewrite Z.geb_leb. rewrite (proj2 (Z.leb_gt _ _) Hdepth).
  rewrite Hheld. reflexivity.
Qed.

(** *** Header maps *)

Lemma find_added (k v : string) (h : WebSocketHttpHeaders) :
  find k h = None -> find k (h ++ [(k, v)])%list = Some v.
Proof.
  induction h as [|[k' v'] h IH]; simpl.
  - intros _. now rewrite key_eqb_refl.
  - destruct (key_eqb k' k); [discriminate|exact IH].
Qed.

Lemma at_key_missing (k : string) (h : WebSocketHttpHeaders) :
  find k h = None -> at_key k h = (EmptyString, (h ++ [(k, EmptyString)])%list).
Proof. unfold at_key. now intros ->. Qed.

(** *** The body stage *)

Lemma request_after_headers fuel url verb body args redirects
      (c c' : HttpClient Sock) x :
  _mutex c = false ->
  exchange url verb body args (set_mutex true c) = (inr x, c') ->
  isRedirect (x_code x) args = false ->
  String.eqb verb "HEAD" = false ->
  request (S fuel) url verb body args redirects c
  = conclude fuel x (readBody fuel args x c').
Proof.
  intros Hfree Hx Hredir Hverb.
  cbn [request]. rewrite Hfree, Hx, Hredir, Hverb.
  unfold conclude. now destruct (readBody fuel args x c') as [[[o|p] s] c''].
Qed.

Lemma to_size_t_small (n bound : Z) :
  0 <= n -> n <= bound -> (to_size_t n >? bound) = false.
Proof.
  intros Hn Hb. unfold to_size_t.
  assert (n mod 2 ^ 64 <= n) by (apply Z.mod_le; lia).
  rewrite Z.gtb_ltb. apply Z.ltb_ge. lia.
Qed.

Lemma no_digit_reads_zero (line : string) :
  Stream.starts_without_digit line = true ->
  Stream.get_hex_u64 line = Stream.Written 0 false.
Proof.
  unfold Stream.starts_without_digit, Stream.get_hex_u64.
  destruct (skipws line) as [|ch rest]; [discriminate|].
  destruct (digit_value 16 ch) eqn:D; [discriminate|].
  intros Hsign.
  assert (Stream.sign_of (String ch rest) = (false, String ch rest)) as ->.
  { destruct ch as [[] [] [] [] [] [] [] []]; try reflexivity; discriminate. }
  assert (Stream.strip_0x (String ch rest) = String ch rest) as ->.
  { destruct ch as [[] [] [] [] [] [] [] []]; try reflexivity; discriminate. }
  simpl. now rewrite D.
Qed.

Lemma digit_value_nonneg (base : Z) (ch : ascii) (d : Z) :
  digit_value base ch = Some d -> 0 <= d.
Proof.
  unfold digit_value.
  match goal with |- context [?v <? base] => set (value := v) end.
  intros H. destruct (value <? base); [|discriminate].
  inversion H; subst d. subst value.
  destruct ch as [[] [] [] [] [] [] [] []]; vm_compute; discriminate.
Qed.

Lemma digits_from_nonneg (base : Z) (s : string) :
  0 <= base ->
  forall count acc, 0 <= acc ->
    0 <= snd (fst (digits_from base s count acc)).
Proof.
  intros Hbase. induction s as [|ch rest IH]; intros count acc Hacc.
  - exact Hacc.
  - cbn [digits_from].
    destruct (digit_value base ch) as [d|] eqn:D; [|exact Hacc].
    apply IH. pose proof (digit_value_nonneg _ _ _ D). nia.
Qed.

(** The extraction on a good stream stores a value unless the line
    is blank. *)
Lemma get_hex_u64_stores (line : string) :
  skipws line <> EmptyString ->
  exists v good,
    Stream.get_hex_u64 line = Stream.Written v good
    /\ 0 <= v <= Stream.UINT64_MAX.
Proof.
  intros Hfield. unfold Stream.get_hex_u64.
  destruct (skipws line) as [|ch field]; [contradiction|].
  destruct (Stream.sign_of (String ch field)) as [negative s1].
  pose proof (digits_from_nonneg 16 (Stream.strip_0x s1) ltac:(lia) O 0
                                 ltac:(lia)) as Hv.
  destruct (digits_from 16 (Stream.strip_0x s1) O 0) as [[count v] rest].
  cbn in Hv.
  assert (Stream.UINT64_MAX = 2 ^ 64 - 1) as Hmax by reflexivity.
  destruct count as [|count].
  - exists 0, false. split; [reflexivity|]. rewrite Hmax. lia.
  - destruct (v >? Stream.UINT64_MAX) eqn:Hbig.
    + exists Stream.UINT64_MAX, false. split; [reflexivity|].
      rewrite Hmax. lia.
    + rewrite Z.gtb_ltb in Hbig. apply Z.ltb_ge in Hbig.
      destruct negative.
      * eexists _, _. split; [reflexivity|]. rewrite Hmax.
        pose proof (Z.mod_pos_bound (- v) (2 ^ 64) ltac:(lia)). lia.
      * eexists _, _. split; [reflexivity|]. lia.
Qed.

Lemma readChunks_only_error fuel args x :
  forall good payload (s : Sock) (c : HttpClient Sock) r,
    fst (fst (readChunks fuel args x good payload s c)) = inl (Returned r) ->
    errorCode r = ChunkReadError.
Proof.
  induction fuel as [|fuel IH]; intros good payload s c r H.
  - discriminate.
  - cbn [readChunks] in H.
    destruct (readLine (x_cancel x) s) as [[ok line] s1].
    destruct ok; cbn [negb] in H;
      [|cbn in H; inversion H; reflexivity].
    destruct (if good then Stream.get_hex_u64 line else Stream.NotWritten)
      as [|chunkSize good']; [discriminate|].
    destruct (to_size_t (size payload + to_size_t chunkSize) >? string_max_size);
      [discriminate|].
    destruct (readBytes (to_size_t chunkSize) (onProgressCallback args)
                        (x_cancel x) s1) as [[ok2 chunk] s2].
    destruct ok2; cbn [negb] in H;
      [|cbn in H; inversion H; reflexivity].
    destruct (readLine (x_cancel x) s2) as [[ok3 t] s3].
    destruct ok3; cbn [negb] in H;
      [|cbn in H; inversion H; reflexivity].
    destruct (chunkSize =? 0); [discriminate|].
    exact (IH _ _ _ _ _ H).
Qed.

Lemma readBody_only_errors fuel args x (c : HttpClient Sock) r :
  fst (fst (readBody fuel args x c)) = inl (Returned r) ->
  errorCode r <> Ok.
Proof.
  unfold readBody. intros H.
  destruct (find "Content-Length" (x_headers x)) as [text|].
  - destruct (to_size_t (parseContentLength text) >? string_max_size);
      [discriminate|].
    destruct (readBytes _ _ _ _) as [[ok chunk] s1].
    destruct ok; cbn in H; [discriminate|].
    inversion H. discriminate.
  - destruct (isChunked (x_headers x)).
    + apply readChunks_only_error in H. rewrite H. discriminate.
    + destruct (x_code x =? 204); cbn in H; [discriminate|].
      inversion H. discriminate.
Qed.


(** *** Claims about the request text *)

(** C3.  The request text carries the default line [Accept: */*] and
    the default line [User-Agent: ixwebsocket] whatever [extraHeaders]
    holds: the two tests look a key up in the local [headers], which
    is still empty, so the lines are not left out when the caller
    supplies an [Accept] or a [User-Agent] header of their own. *)
Theorem default_headers_sent_regardless
        (verb host path body : string) (args : HttpRequestArgs) :
  contains ("Accept: */*" ++ CRLF) (buildRequest verb host path body args)
  = true
  /\ contains ("User-Agent: ixwebsocket" ++ CRLF)
              (buildRequest verb host path body args)
     = true.
Proof.
  destruct (buildRequest_shape verb host path body args)
    as (before & after & -> & _).
  split.
  - apply contains_later, contains_here.
  - apply contains_later, contains_later, contains_here.
Qed.

(** C9.  [del] calls [request] with the verb [kDel], which is the
    text [DEL]: the request line it builds starts [DEL <path> HTTP/1.1]
    and does not start with [DELETE]. *)
Theorem del_request_line (fuel : nat) (url host path body : string)
        (args : HttpRequestArgs) (c : HttpClient Sock) :
  del fuel url args c = request fuel url "DEL" EmptyString args 0 c
  /\ starts_with ("DEL " ++ path ++ " HTTP/1.1" ++ CRLF)
                 (buildRequest kDel host path body args) = true
  /\ starts_with "DELETE" (buildRequest kDel host path body args) = false.
Proof.
  split; [reflexivity|]. split.
  - destruct (buildRequest_starts kDel host path body args) as [rest ->].
    change (kDel ++ " ") with "DEL ".
    rewrite <- !append_assoc. apply starts_with_self.
  - reflexivity.
Qed.

(** *** Claims about the response *)

(** C6.  A [HEAD] request whose status line and headers were parsed
    and that is not redirected returns [Ok] with an empty body, the
    status code and the headers as parsed, whatever those headers
    are; the socket is left as the header parser left it, so nothing
    of a body was read. *)
Theorem head_reads_no_body fuel url body args redirects
        (c c' : HttpClient Sock) x :
  _mutex c = false ->
  exchange url "HEAD" body args (set_mutex true c) = (inr x, c') ->
  isRedirect (x_code x) args = false ->
  request (S fuel) url "HEAD" body args redirects c
  = (Returned (mkResponse (x_code x) Ok (x_headers x) EmptyString EmptyString
                          (x_uploadSize x) 0),
     set_mutex false c')
  /\ _socket (set_mutex false c') = Some (x_socket x).
Proof.
  intros Hfree Hx Hredir. split.
  - cbn [request]. rewrite Hfree, Hx, Hredir. reflexivity.
  - simpl. exact (exchange_socket _ _ _ _ _ _ _ Hx).
Qed.

(** C5.  For a response that is neither to a [HEAD] request nor a
    followed redirect, the body is read along exactly one path, the
    first that applies of: a [Content-Length] header (one read of that
    many bytes, [ChunkReadError] when the read fails); a
    [Transfer-Encoding] header equal to [chunked] (the chunked
    decoder); status 204 (empty body, nothing read); none of these
    ([CannotReadBody], nothing read). *)
Theorem body_framing_by_priority fuel url verb body args redirects
        (c c' : HttpClient Sock) x :
  _mutex c = false ->
  exchange url verb body args (set_mutex true c) = (inr x, c') ->
  isRedirect (x_code x) args = false ->
  String.eqb verb "HEAD" = false ->
  (** the priority order *)
  (forall text, find "Content-Length" (x_headers x) = Some text ->
                selectFraming (x_code x) (x_headers x) = ByContentLength text)
  /\ (find "Content-Length" (x_headers x) = None ->
      (isChunked (x_headers x) = true ->
       selectFraming (x_code x) (x_headers x) = ByChunks)
      /\ (isChunked (x_headers x) = false ->
          (x_code x = 204 ->
           selectFraming (x_code x) (x_headers x) = NoContent)
          /\ (x_code x <> 204 ->
              selectFraming (x_code x) (x_headers x) = NoFraming)))
  (** what the call does with the one framing selected *)
  /\ request (S fuel) url verb body args redirects c
     = conclude fuel x
         match selectFraming (x_code x) (x_headers x) with
         | ByContentLength text =>
             let n := to_size_t (parseContentLength text) in
             if n >? string_max_size then (inl LengthError, x_socket x, c')
             else
               match readBytes n (onProgressCallback args) (x_cancel x)
                               (x_socket x) with
               | ((true, data), s) => (inr data, s, c')
               | ((false, _), s) =>
                   (inl (Returned (failure x ChunkReadError EmptyString
                                           "Cannot read chunk")), s, c')
               end
         | ByChunks => readChunks fuel args x true EmptyString (x_socket x) c'
         | NoContent => (inr EmptyString, x_socket x, c')
         | NoFraming =>
             (inl (Returned (failure x CannotReadBody EmptyString
                                     "Cannot read http body")),
              x_socket x, c')
         end.
Proof.
  intros Hfree Hx Hredir Hverb.
  split; [|split].
  - intros text H. unfold selectFraming. now rewrite H.
  - intros H. unfold selectFraming. rewrite H. split.
    + now intros ->.
    + intros ->. split.
      * now intros ->.
      * intros Hcode. apply Z.eqb_neq in Hcode. now rewrite Hcode.
  - rewrite (request_after_headers _ _ _ _ _ _ _ _ _ Hfree Hx Hredir Hverb).
    f_equal. unfold readBody, selectFraming.
    destruct (find "Content-Length" (x_headers x)) as [text|].
    + cbv zeta.
      destruct (to_size_t (parseContentLength text) >? string_max_size);
        [reflexivity|].
      destruct (readBytes _ _ _ _) as [[[|] data] s]; reflexivity.
    + destruct (isChunked (x_headers x)); [reflexivity|].
      destruct (x_code x =? 204); reflexivity.
Qed.

(** C4, as amended.  In the chunked decoder a size line that cannot
    be read ends the call with [ChunkReadError], and that is the only
    error the decoder returns.  A size line that was read is not
    checked for being hexadecimal.  When the decoder's stream is no
    longer good, or the line is blank, the extraction stores nothing
    and [chunkSize] is read without having been written.  Otherwise
    the extraction stores a value, 0 for a line that starts with
    neither a hexadecimal digit nor a sign, and the decoder goes on
    with it whatever the line was: it reserves and reads that many
    bytes and the terminator line, and leaves the loop when the value
    is 0.  So on a good stream a line without a digit ends the loop as
    the end of a body does (the body accumulated so far being within
    [max_size()], as every [std::string] is). *)
Theorem chunk_size_line_outcomes fuel args x :
  (forall good payload (s : Sock) (c : HttpClient Sock),
      fst (fst (readLine (x_cancel x) s)) = false ->
      fst (fst (readChunks (S fuel) args x good payload s c))
      = inl (Returned (failure x ChunkReadError payload (x_errorMsg x))))
  /\ (forall good payload (s : Sock) (c : HttpClient Sock) r,
         fst (fst (readChunks fuel args x good payload s c))
         = inl (Returned r) ->
         errorCode r = ChunkReadError)
  /\ (forall good payload (s s1 : Sock) (c : HttpClient Sock) line,
         readLine (x_cancel x) s = ((true, line), s1) ->
         good = false \/ skipws line = EmptyString ->
         readChunks (S fuel) args x good payload s c
         = (inl Undefined, s1, c))
  /\ (forall payload (s s1 : Sock) (c : HttpClient Sock) line,
         readLine (x_cancel x) s = ((true, line), s1) ->
         skipws line <> EmptyString ->
         exists chunkSize good',
           Stream.get_hex_u64 line = Stream.Written chunkSize good'
           /\ 0 <= chunkSize <= Stream.UINT64_MAX
           /\ (Stream.starts_without_digit line = true -> chunkSize = 0)
           /\ readChunks (S fuel) args x true payload s c
              = let c1 := log_if (verbose args)
                                 ("Reading " ++ put_dec chunkSize ++ " bytes"
                                  ++ endl) args c in
                if to_size_t (size payload + to_size_t chunkSize)
                   >? string_max_size
                then (inl LengthError, s1, c1)
                else
                  match readBytes (to_size_t chunkSize)
                                  (onProgressCallback args) (x_cancel x) s1 with
                  | ((false, _), s2) =>
                      (inl (Returned (failure x ChunkReadError payload
                                              "Cannot read chunk")), s2, c1)
                  | ((true, chunk), s2) =>
                      match readLine (x_cancel x) s2 with
                      | ((false, _), s3) =>
                          (inl (Returned (failure x ChunkReadError
                                                  (payload ++ chunk)
                                                  (x_errorMsg x))), s3, c1)
                      | ((true, _), s3) =>
                          if chunkSize =? 0 then (inr (payload ++ chunk), s3, c1)
                          else readChunks fuel args x good' (payload ++ chunk)
                                          s3 c1
                      end
                  end)
  /\ (forall payload (s s1 s2 s3 : Sock) (c : HttpClient Sock) line data t,
         readLine (x_cancel x) s = ((true, line), s1) ->
         Stream.starts_without_digit line = true ->
         size payload <= string_max_size ->
         readBytes 0 (onProgressCallback args) (x_cancel x) s1
         = ((true, data), s2) ->
         readLine (x_cancel x) s2 = ((true, t), s3) ->
         fst (readChunks (S fuel) args x true payload s c)
         = (inr (payload ++ data), s3)).
Proof.
  split; [|split; [|split; [|split]]].
  - intros good payload s c H. cbn [readChunks].
    destruct (readLine (x_cancel x) s) as [[ok line] s1].
    cbn in H. subst ok. reflexivity.
  - apply readChunks_only_error.
  - intros good payload s s1 c line Hline Hnone.
    cbn [readChunks]. rewrite Hline. cbn [negb].
    destruct Hnone as [-> | Hblank]; [reflexivity|].
    unfold Stream.get_hex_u64. rewrite Hblank. now destruct good.
  - intros payload s s1 c line Hline Hfield.
    destruct (get_hex_u64_stores line Hfield) as (v & g & E & R).
    exists v, g. split; [exact E|]. split; [exact R|]. split.
    + intros Hbad. rewrite (no_digit_reads_zero _ Hbad) in E. congruence.
    + cbn [readChunks]. rewrite Hline. cbn [negb]. rewrite E. cbv zeta.
      destruct (to_size_t (size payload + to_size_t v) >? string_max_size);
        [reflexivity|].
      destruct (readBytes (to_size_t v) (onProgressCallback args)
                          (x_cancel x) s1) as [[[|] chunk] s2];
        [|reflexivity].
      cbn [negb].
      destruct (readLine (x_cancel x) s2) as [[[|] t] s3]; reflexivity.
  - intros payload s s1 s2 s3 c line data t Hline Hbad Hroom Hdata Hend.
    cbn [readChunks]. rewrite Hline. cbn [negb].
    rewrite (no_digit_reads_zero _ Hbad).
    change (to_size_t 0) with 0. rewrite Z.add_0_r.
    rewrite to_size_t_small; [|unfold size; lia|exact Hroom].
    rewrite Hdata. cbn [negb]. rewrite Hend. reflexivity.
Qed.

(** C10.  When a call that is neither a [HEAD] request nor a followed
    redirect succeeds and the parsed response had no
    [Content-Encoding] header, the headers of the response returned
    are the parsed ones with one more entry, [Content-Encoding] with
    an empty value, which the gzip test put there. *)
Theorem content_encoding_key_added fuel url verb body args redirects
        (c c' c'' : HttpClient Sock) x r :
  _mutex c = false ->
  exchange url verb body args (set_mutex true c) = (inr x, c') ->
  isRedirect (x_code x) args = false ->
  String.eqb verb "HEAD" = false ->
  find "Content-Encoding" (x_headers x) = None ->
  request fuel url verb body args redirects c = (Returned r, c'') ->
  errorCode r = Ok ->
  find "Content-Encoding" (headers r) = Some EmptyString
  /\ headers r = (x_headers x ++ [("Content-Encoding", EmptyString)])%list.
Proof.
  intros Hfree Hx Hredir Hverb Hmiss Hret Hok.
  destruct fuel as [|fuel]; [discriminate|].
  rewrite (request_after_headers _ _ _ _ _ _ _ _ _ Hfree Hx Hredir Hverb)
    in Hret.
  assert (headers r = (x_headers x ++ [("Content-Encoding", EmptyString)])%list)
    as Hh.
  { unfold conclude in Hret.
    destruct (readBody fuel args x c') as [[[o|payload] s] c1] eqn:Hbody.
    - destruct o; cbn in Hret; try discriminate.
      inversion Hret; subst.
      exfalso. apply (readBody_only_errors fuel args x c' r); [|exact Hok].
      now rewrite Hbody.
    - unfold finish in Hret. rewrite (at_key_missing _ _ Hmiss) in Hret.
      cbn in Hret. inversion Hret; subst. reflexivity. }
  split; [|exact Hh].
  rewrite Hh. apply find_added. exact Hmiss.
Qed.

End Engine.

End HttpFacts.

(** ** Runs on the scripted transport *)

Module Runs.

Import Http Wire HttpFacts.

(** Runs [exchange] on a table and keeps the equation, for use with
    the theorems above. *)
Ltac exchanged table url verb args x c' Hx :=
  destruct (exchange (platform := platform_of table) url verb EmptyString
                     args (set_mutex true idle)) as [[? | x] c'] eqn:Hx;
  [vm_compute in Hx; discriminate|].

Ltac concrete Hx :=
  let H := fresh in
  pose proof Hx as H; vm_compute in H; inversion H; subst; clear H.

(** C1.  A call that meets a redirect it should follow (status 301,
    a [Location] header, [followRedirects] set, depth 0 below
    [maxRedirects] = 10) calls [request] again while it holds
    [_mutex]; the inner call stops at its own [lock_guard], so the
    call does not complete: no response is returned, the mutex stays
    locked, and nothing is ever sent to the new location. *)
Theorem redirect_call_deadlocks (fuel : nat) :
  let run := get (platform := platform_of chain1)
                 (S (S fuel)) "http://a/" (args_with [] true 10) idle in
  fst run = Deadlock
  /\ _mutex (snd run) = true
  /\ contains "Host: b" (bytes_sent (snd run)) = false.
Proof. vm_compute. auto. Qed.

(** C2.  With [maxRedirects] = 1, a chain of one redirect does not
    return the final hop's response, and a chain of two redirects
    does not return [TooManyRedirects]: both calls stop at the lock of
    the first recursive call. *)
Theorem redirect_chain_not_followed (fuel : nat) :
  fst (get (platform := platform_of chain1)
           (S (S fuel)) "http://a/" (args_with [] true 1) idle)
  = Deadlock
  /\ fst (get (platform := platform_of chain2)
              (S (S fuel)) "http://a/" (args_with [] true 1) idle)
     = Deadlock.
Proof. vm_compute. auto. Qed.

(** The depth test itself, where no recursive call is involved: with
    [maxRedirects] = 0 a response that is no redirect is returned, and
    one redirect gives [TooManyRedirects] with a single request
    sent. *)
Example depth_bound_at_zero (fuel : nat) :
  (exists r,
      fst (get (platform := platform_of plain)
               (S (S fuel)) "http://a/" (args_with [] true 0) idle)
      = Returned r
      /\ errorCode r = Ok /\ payload r = "hello")
  /\ (exists r c,
         get (platform := platform_of chain1)
             (S (S fuel)) "http://a/" (args_with [] true 0) idle
         = (Returned r, c)
         /\ errorCode r = TooManyRedirects
         /\ contains "Host: b" (bytes_sent c) = false).
Proof.
  split.
  - eexists. vm_compute. auto.
  - eexists _, _. vm_compute. auto.
Qed.

(** The request text of a caller who supplies [Accept] has both
    lines. *)
Example accept_sent_twice :
  let c := snd (get (platform := platform_of plain) 2 "http://a/"
                    (args_with [("Accept", "text/html")] false 10) idle) in
  contains ("Accept: text/html" ++ CRLF) (bytes_sent c) = true
  /\ contains ("Accept: */*" ++ CRLF) (bytes_sent c) = true.
Proof. vm_compute. auto. Qed.

(** What [del] writes. *)
Example del_bytes_sent :
  bytes_sent (snd (del (platform := platform_of plain) 2 "http://a/x"
                       (args_with [] false 10) idle))
  = lines ["DEL /x HTTP/1.1"; "Host: a"; "Accept: */*";
           "User-Agent: ixwebsocket"; EmptyString].
Proof. vm_compute. reflexivity. Qed.

(** The decoder and the gzip stage on well-formed input. *)
Example chunked_body_decoded :
  exists r,
    fst (get (platform := platform_of two_chunks) 5 "http://a/"
             (args_with [] false 10) idle)
    = Returned r
    /\ errorCode r = Ok /\ payload r = "helloabc" /\ downloadSize r = 8.
Proof. eexists. vm_compute. auto. Qed.

Example gzip_body_inflated :
  exists r,
    fst (get (platform := platform_of zipped) 5 "http://a/"
             (args_with [] false 10) idle)
    = Returned r
    /\ errorCode r = Ok /\ payload r = "hello" /\ downloadSize r = 6.
Proof. eexists. vm_compute. auto. Qed.

(** C4, the claim as stated fails: the size line [zz] is no
    hexadecimal integer, and the call returns [Ok] with an empty body
    after reading the line as the end of the body. *)
Lemma malformed_chunk_size_ends_body :
  Stream.well_formed_hex "zz" = false
  /\ exists r c,
      get (platform := platform_of bad_chunk) 3 "http://a/"
          (args_with [] false 10) idle
      = (Returned r, c)
      /\ errorCode r = Ok
      /\ errorCode r <> ChunkReadError
      /\ payload r = EmptyString
      /\ bytes_unread c = EmptyString.
Proof.
  split; [reflexivity|].
  eexists _, _. vm_compute. repeat split. discriminate.
Qed.

Lemma chunk_size_line_outcomes_witness :
  let args := args_with [] false 10 in
  let cut := chunked_exchange EmptyString in
  let bad := chunked_exchange (lines ["zz"; EmptyString]) in
  let odd := chunked_exchange (lines ["5zz"; "hello"; "0;"; EmptyString]) in
  (** no size line to read *)
  (fst (fst (readLine (x_cancel cut) (x_socket cut))) = false
   /\ fst (fst (readChunks (platform := platform_of []) 1 args cut true
                           EmptyString (x_socket cut) idle))
      = inl (Returned (failure cut ChunkReadError EmptyString EmptyString)))
  (** the size line [zz] on a good stream *)
  /\ (Stream.starts_without_digit "zz" = true
      /\ exists s3,
          fst (readChunks (platform := platform_of []) 1 args bad true
                          EmptyString (x_socket bad) idle)
          = (inr EmptyString, s3)
          /\ inbound s3 = EmptyString)
  (** the size line [zz] on a stream that is not good *)
  /\ readChunks (platform := platform_of []) 1 args bad false
                EmptyString (x_socket bad) idle
     = (inl Undefined, conn_with CRLF, idle)
  (** the size line [5zz] on a good stream *)
  /\ (Stream.well_formed_hex "5zz" = false
      /\ exists chunkSize good',
          Stream.get_hex_u64 "5zz" = Stream.Written chunkSize good'
          /\ chunkSize = 5
          /\ readChunks (platform := platform_of []) 2 args odd true
                        EmptyString (x_socket odd) idle
             = (inr "hello", conn_with EmptyString, idle)).
Proof.
  intros args cut bad odd.
  pose proof (chunk_size_line_outcomes (platform := platform_of [])
                                       0 args cut) as [Hcut _].
  pose proof (chunk_size_line_outcomes (platform := platform_of [])
                                       0 args bad)
    as (_ & _ & Hnone & _ & Hbad).
  pose proof (chunk_size_line_outcomes (platform := platform_of [])
                                       1 args odd)
    as (_ & _ & _ & Hodd & _).
  split; [|split; [|split]].
  - split; [reflexivity|]. apply Hcut. reflexivity.
  - split; [reflexivity|]. exists (conn_with EmptyString). split.
    + apply (Hbad EmptyString (conn_with (lines ["zz"; EmptyString]))
                  (conn_with CRLF) (conn_with CRLF) (conn_with EmptyString)
                  idle "zz" EmptyString EmptyString);
        try reflexivity. vm_compute. discriminate.
    + reflexivity.
  - apply (Hnone false EmptyString (conn_with (lines ["zz"; EmptyString]))
                 (conn_with CRLF) idle "zz").
    + reflexivity.
    + left. reflexivity.
  - split; [reflexivity|].
    destruct (Hodd EmptyString
                   (conn_with (lines ["5zz"; "hello"; "0;"; EmptyString]))
                   (conn_with (lines ["hello"; "0;"; EmptyString]))
                   idle "5zz")
      as (v & g & E & _ & _ & Hgo).
    + reflexivity.
    + discriminate.
    + exists v, g. split; [exact E|].
      pose proof E as E'. vm_compute in E'. inversion E'; subst v g.
      split; [reflexivity|].
      etransitivity; [exact Hgo|]. vm_compute. reflexivity.
Defined.

Lemma head_reads_no_body_witness :
  exists x c',
    exchange (platform := platform_of plain) "http://a/" "HEAD" EmptyString
             (args_with [] true 10) (set_mutex true idle)
    = (inr x, c')
    /\ find (platform := platform_of plain) "Content-Length" (x_headers x)
       = Some "5"
    /\ request (platform := platform_of plain) 1 "http://a/" "HEAD"
               EmptyString (args_with [] true 10) 0 idle
       = (Returned (mkResponse 200 Ok [("Content-Length", "5")] EmptyString
                               EmptyString 66 0),
          set_mutex false c')
    /\ bytes_unread (set_mutex false c') = "hello".
Proof.
  exchanged plain "http://a/" "HEAD" (args_with [] true 10) x c' Hx.
  exists x, c'.
  destruct (head_reads_no_body (platform := platform_of plain)
                               0 "http://a/" EmptyString
                               (args_with [] true 10) 0 idle c' x
                               eq_refl Hx) as [Hrun Hsock].
  { concrete Hx. reflexivity. }
  split; [reflexivity|].
  split; [concrete Hx; reflexivity|].
  split.
  - rewrite Hrun. concrete Hx. reflexivity.
  - unfold bytes_unread. rewrite Hsock. concrete Hx. reflexivity.
Defined.

Lemma body_framing_by_priority_witness :
  exists x c',
    exchange (platform := platform_of both_framings) "http://a/" "GET"
             EmptyString (args_with [] true 10) (set_mutex true idle)
    = (inr x, c')
    /\ x_code x = 204
    /\ isChunked (platform := platform_of both_framings) (x_headers x) = true
    /\ selectFraming (platform := platform_of both_framings)
                     (x_code x) (x_headers x)
       = ByContentLength "5"
    /\ exists r c'',
        request (platform := platform_of both_framings) 2 "http://a/" "GET"
                EmptyString (args_with [] true 10) 0 idle
        = (Returned r, c'')
        /\ errorCode r = Ok /\ payload r = "hello"
        /\ bytes_unread c'' = EmptyString.
Proof.
  exchanged both_framings "http://a/" "GET" (args_with [] true 10) x c' Hx.
  exists x, c'.
  destruct (body_framing_by_priority (platform := platform_of both_framings)
                                     1 "http://a/" "GET" EmptyString
                                     (args_with [] true 10) 0 idle c' x
                                     eq_refl Hx) as (Hfirst & _ & Hrun).
  { concrete Hx. reflexivity. }
  { reflexivity. }
  split; [reflexivity|].
  split; [concrete Hx; reflexivity|].
  split; [concrete Hx; reflexivity|].
  split; [apply Hfirst; concrete Hx; reflexivity|].
  rewrite Hrun. concrete Hx. eexists _, _. vm_compute. repeat split.
Defined.

Lemma content_encoding_key_added_witness :
  exists x c' r c'',
    exchange (platform := platform_of plain) "http://a/" "GET" EmptyString
             (args_with [] true 10) (set_mutex true idle)
    = (inr x, c')
    /\ find (platform := platform_of plain) "Content-Encoding" (x_headers x)
       = None
    /\ request (platform := platform_of plain) 2 "http://a/" "GET" EmptyString
               (args_with [] true 10) 0 idle
       = (Returned r, c'')
    /\ errorCode r = Ok
    /\ headers r = [("Content-Length", "5"); ("Content-Encoding", EmptyString)]
    /\ find (platform := platform_of plain) "Content-Encoding" (headers r)
       = Some EmptyString.
Proof.
  exchanged plain "http://a/" "GET" (args_with [] true 10) x c' Hx.
  destruct (request (platform := platform_of plain) 2 "http://a/" "GET"
                    EmptyString (args_with [] true 10) 0 idle)
    as [o c''] eqn:Hrun.
  assert (exists r, o = Returned r /\ errorCode r = Ok) as (r & -> & Hok).
  { vm_compute in Hrun. inversion Hrun; subst. eexists. split; reflexivity. }
  exists x, c', r, c''.
  assert (find (platform := platform_of plain) "Content-Encoding" (x_headers x)
          = None) as Hmiss by (concrete Hx; reflexivity).
  destruct (content_encoding_key_added (platform := platform_of plain)
                                       2 "http://a/" "GET" EmptyString
                                       (args_with [] true 10) 0 idle c' c'' x r
                                       eq_refl Hx) as [Hfound Hheaders];
    try assumption; try reflexivity.
  { concrete Hx. reflexivity. }
  repeat split; try assumption.
  rewrite Hheaders. concrete Hx. reflexivity.
Defined.

End Runs.

(** ** The worker and the shutdown *)

Module AsyncFacts.

Import Async.

Local Open Scope list_scope.
Local Open Scope nat_scope.

Section Dispatcher.

Context {Task : Type} (returns : Task -> bool).

Local Abbreviation step := (step returns).
Local Abbreviation run := (run returns).

(** Every action on every shape of state. *)
Ltac step_cases a s :=
  let async := fresh "async" in
  let stop := fresh "stop" in
  let queue := fresh "queue" in
  let w := fresh "w" in
  let req := fresh "req" in
  let cal := fresh "cal" in
  let t := fresh "t" in
  destruct s as [async stop queue w req cal]; cbn in *; subst;
  destruct a as [| t |];
  cbn;
  [ destruct w; cbn; try destruct queue; cbn
  | destruct async; cbn
  | destruct async; cbn ].

(** *** One step after the stop flag is set *)

Lemma step_keeps_stop (a : action Task) (s : state Task) :
  _stop s = true -> _stop (step a s) = true.
Proof. intros H. step_cases a s; reflexivity. Qed.

Lemma step_requested (a : action Task) (s : state Task) :
  _stop s = true ->
  (requested (step a s) = requested s
   /\ forall t, awaits_request (step a s) = Some t -> awaits_request s = Some t)
  \/ (exists t, awaits_request s = Some t
                /\ requested (step a s) = t :: requested s
                /\ awaits_request (step a s) = None).
Proof.
  intros H. step_cases a s;
    try (left; split; [reflexivity|]; intros ? ?; (discriminate || assumption)).
  all: right; eexists; repeat split.
  all: match goal with |- context [returns ?t] => now destruct (returns t) end.
Qed.

Lemma step_called (a : action Task) (s : state Task) :
  _stop s = true ->
  (called (step a s) = called s
   /\ forall t, in_flight (step a s) = Some t -> in_flight s = Some t)
  \/ (exists t, in_flight s = Some t
                /\ called (step a s) = t :: called s
                /\ in_flight (step a s) = None).
Proof.
  intros H. step_cases a s;
    try (left; split; [reflexivity|]; intros ? ?; (discriminate || assumption)).
  all: try (right; eexists; repeat split; fail).
  all: left; split; [reflexivity|]; intros t'.
  all: match goal with |- context [returns ?t] =>
                         destruct (returns t); cbn; congruence end.
Qed.

Lemma step_queue (a : action Task) (s : state Task) :
  _stop s = true ->
  (exists added,
      _queue (step a s) = _queue s ++ added
      /\ (worker (step a s) = AtPop -> worker s = AtPop))
  \/ (worker s = AtPop
      /\ worker (step a s) <> AtPop
      /\ exists p, _queue s = p :: _queue (step a s)).
Proof.
  intros H. step_cases a s;
    try (left; exists []; rewrite ?app_nil_r; split;
         [reflexivity | intros ?; (discriminate || assumption || reflexivity)]).
  all: try (right; split; [reflexivity|]; split; [discriminate|];
            eexists; reflexivity).
  all: try (left; eexists [_]; split; [reflexivity|]; auto; fail).
  all: left; exists []; rewrite ?app_nil_r; split; [reflexivity|].
  all: match goal with |- context [returns ?t] =>
                         destruct (returns t); discriminate end.
Qed.

(** *** Runs after the stop flag is set *)

Lemma run_keeps_stop (trace : list (action Task)) :
  forall s, _stop s = true -> _stop (run trace s) = true.
Proof.
  induction trace as [|a trace IH]; intros s H; cbn; [exact H|].
  apply IH, step_keeps_stop, H.
Qed.

Lemma run_requested (trace : list (action Task)) :
  forall s, _stop s = true ->
    requested (run trace s) = requested s
    \/ exists t, awaits_request s = Some t
                 /\ requested (run trace s) = t :: requested s.
Proof.
  induction trace as [|a trace IH]; intros s H; cbn; [now left|].
  pose proof (step_keeps_stop a s H) as H1.
  destruct (step_requested a s H) as [[Hsame Hback] | (t & Ht & Hadd & Hnone)].
  - destruct (IH _ H1) as [E | (t & Ht & E)].
    + left. congruence.
    + right. exists t. split; [auto|congruence].
  - destruct (IH _ H1) as [E | (t' & Ht' & _)]; [|congruence].
    right. exists t. split; [exact Ht|congruence].
Qed.

Lemma run_called (trace : list (action Task)) :
  forall s, _stop s = true ->
    called (run trace s) = called s
    \/ exists t, in_flight s = Some t
                 /\ called (run trace s) = t :: called s.
Proof.
  induction trace as [|a trace IH]; intros s H; cbn; [now left|].
  pose proof (step_keeps_stop a s H) as H1.
  destruct (step_called a s H) as [[Hsame Hback] | (t & Ht & Hadd & Hnone)].
  - destruct (IH _ H1) as [E | (t & Ht & E)].
    + left. congruence.
    + right. exists t. split; [auto|congruence].
  - destruct (IH _ H1) as [E | (t' & Ht' & _)]; [|congruence].
    right. exists t. split; [exact Ht|congruence].
Qed.

Lemma run_queue (trace : list (action Task)) :
  forall s, _stop s = true ->
    exists dropped added,
      _queue s ++ added = dropped ++ _queue (run trace s)
      /\ (dropped = [] \/ (worker s = AtPop /\ length dropped = 1%nat)).
Proof.
  induction trace as [|a trace IH]; intros s H; cbn.
  - exists [], []. rewrite app_nil_r. auto.
  - pose proof (step_keeps_stop a s H) as H1.
    destruct (IH _ H1) as (dropped & added & E & D).
    destruct (step_queue a s H) as [(more & Q & W) | (W & W1 & p & Q)].
    + exists dropped, (more ++ added). split.
      * rewrite app_assoc, <- Q. exact E.
      * destruct D as [D | [D L]]; [now left | right; auto].
    + destruct D as [-> | [D _]]; [|contradiction].
      exists [p], added. split.
      * rewrite Q. cbn in *. now rewrite E.
      * right. auto.
Qed.

(** *** The worker leaves [run] *)

Lemma wf_step (a : action Task) (s : state Task) : wf s -> wf (step a s).
Proof.
  unfold wf. intros (Hpop & Hcheck & Hcrash).
  step_cases a s; repeat split; intros; try discriminate; try congruence;
    try (destruct stop; cbn in *; discriminate);
    try (destruct (returns t); discriminate);
    try (exfalso; auto; fail);
    try (intros E; apply app_eq_nil in E as [_ E]; discriminate).
  all: try (destruct stop; cbn in *; try discriminate; auto).
  all: exfalso; now apply Hpop.
Qed.

Lemma wf_run (trace : list (action Task)) : forall s, wf s -> wf (run trace s).
Proof.
  induction trace as [|a trace IH]; intros s H; cbn; [exact H|].
  apply IH, wf_step, H.
Qed.

Lemma wf_started : wf (started (Task := Task)).
Proof. repeat split; discriminate. Qed.

Lemma step_distance (a : action Task) (s : state Task) :
  _stop s = true ->
  match a with
  | Work => (distance (worker (step a s)) < distance (worker s))%nat
            \/ distance (worker (step a s)) = O
  | _ => worker (step a s) = worker s
  end.
Proof.
  intros H. step_cases a s; auto; try (left; lia).
  all: match goal with |- context [returns ?t] =>
                         destruct (returns t); cbn; left; lia end.
Qed.

Lemma run_distance (trace : list (action Task)) :
  forall s, _stop s = true ->
    (distance (worker (run trace s)) + count_work trace
     <= distance (worker s))%nat
    \/ distance (worker (run trace s)) = O.
Proof.
  induction trace as [|a trace IH]; intros s H; cbn [Async.run].
  - left. cbn. lia.
  - pose proof (step_keeps_stop a s H) as H1.
    pose proof (step_distance a s H) as D.
    destruct (IH _ H1) as [L | Z]; [|now right].
    destruct a; cbn [Async.count_work].
    + destruct D as [D | D]; [left; lia|].
      right. lia.
    + left. rewrite <- D. exact L.
    + left. rewrite <- D. exact L.
Qed.

(** C8.  Once the shutdown has set the stop flag, whatever the
    worker and the other threads do next: the only entry whose request
    can still be executed or whose callback can still be invoked is
    the one the worker had already taken past its last stop check;
    the entries waiting in the queue stay there, but for the one that
    was being popped, which is dropped; and after three steps of its
    own the worker has left [run] (or sits in a request that does not
    come back). *)
Theorem shutdown_discards_queued_entries (before after : list (action Task)) :
  let s := run before started in
  let s' := run after s in
  _stop s = true ->
  (requested s' = requested s
   \/ exists t, awaits_request s = Some t /\ requested s' = t :: requested s)
  /\ (called s' = called s
      \/ exists t, in_flight s = Some t /\ called s' = t :: called s)
  /\ (exists dropped added,
         _queue s ++ added = dropped ++ _queue s'
         /\ (dropped = [] \/ (worker s = AtPop /\ length dropped = 1%nat)))
  /\ ((3 <= count_work after)%nat ->
      worker s' = Exited \/ worker s' = Hung).
Proof.
  intros s s' H.
  split; [apply run_requested, H|].
  split; [apply run_called, H|].
  split; [apply run_queue, H|].
  intros Hwork.
  assert (wf s') as (_ & _ & Hcrash) by (apply wf_run, wf_run, wf_started).
  fold s' in Hcrash.
  assert (distance (worker s') = O) as Hzero.
  { destruct (run_distance after s H) as [L | Z]; [|exact Z].
    fold s' in L.
    assert (distance (worker s) <= 3)%nat by (destruct (worker s); cbn; lia).
    lia. }
  destruct (worker s'); cbn in Hzero; try discriminate; auto.
  contradiction.
Qed.

End Dispatcher.

(** A run: three entries are enqueued, the worker takes the first one
    up to its request, and the shutdown begins; afterwards the request
    and the callback of that entry happen, the other two stay in the
    queue, and the worker leaves. *)
Lemma shutdown_discards_queued_entries_witness :
  let returns := fun _ : nat => true in
  let before := [Enqueue 1; Enqueue 2; Enqueue 3;
                 Work; Work; Work; Work; Shutdown] in
  let after := [Work; Enqueue 4; Work; Work; Work] in
  let s := run returns before started in
  let s' := run returns after s in
  _stop s = true
  /\ worker s = AtRequest 1 /\ _queue s = [2; 3]
  /\ requested s' = [1] /\ called s' = [1]
  /\ _queue s' = [2; 3; 4]
  /\ worker s' = Exited.
Proof.
  intros returns before after s s'.
  pose proof (shutdown_discards_queued_entries returns before after eq_refl)
    as (Hreq & Hcall & Hqueue & Hexit).
  split; [reflexivity|]. split; [reflexivity|]. split; [reflexivity|].
  split.
  { destruct Hreq as [E | (t & Ht & E)]; [discriminate E|].
    inversion Ht; subst t. exact E. }
  split.
  { destruct Hcall as [E | (t & Ht & E)]; [discriminate E|].
    inversion Ht; subst t. exact E. }
  split; [reflexivity|].
  destruct Hexit as [E | E]; [cbn; lia | exact E | discriminate E].
Defined.


End AsyncFacts.

(** * Further properties *)

(** ** [urlEncode] and [serializeHttpParameters] *)

Module UrlMore.

Import Url Query.

Local Open Scope nat_scope.

Lemma byte_alphabet (c : ascii) : byte_alphabet_ok c = true.
Proof.
  destruct c as [[] [] [] [] [] [] [] []]; vm_compute; reflexivity.
Qed.

Lemma all_chars_app (p : ascii -> bool) (a b : string) :
  all_chars p (a ++ b) = all_chars p a && all_chars p b.
Proof.
  induction a as [|c a IH]; [reflexivity|].
  cbn. rewrite IH. now rewrite andb_assoc.
Qed.

Lemma urlEncode_in_alphabet (s : string) :
  all_chars in_alphabet (urlEncode s) = true.
Proof.
  induction s as [|c s IH]; [reflexivity|].
  cbn [urlEncode]. rewrite all_chars_app, IH.
  pose proof (byte_alphabet c) as B. unfold byte_alphabet_ok in B.
  apply andb_prop in B as [B _]. now rewrite B.
Qed.

Lemma occurs_outside (p : ascii -> bool) (c : ascii) (s : string) :
  all_chars p s = true -> p c = false -> occurs c s = false.
Proof.
  induction s as [|c' s IH]; [reflexivity|].
  cbn. intros H Hc. apply andb_prop in H as [H1 H2].
  rewrite (IH H2 Hc), orb_false_r.
  destruct (Ascii.eqb_spec c' c); [congruence|reflexivity].
Qed.

(** X1.  The output of [urlEncode] is made of alphanumeric bytes,
    [-], [_], [.], [~] and [%] only: a byte that the function
    escapes, other than [%] itself, occurs nowhere in it, so no
    [&], [=], [+], [/], [?], [#], space, or line break is ever left
    in an encoded text. *)
Theorem urlEncode_output_alphabet (s : string) :
  (forall c, is_unreserved c = false -> c <> "%"%char ->
             occurs c (urlEncode s) = false)
  /\ occurs "&" (urlEncode s) = false
  /\ occurs "=" (urlEncode s) = false
  /\ occurs " " (urlEncode s) = false
  /\ occurs Text.CR (urlEncode s) = false
  /\ occurs Text.LF (urlEncode s) = false.
Proof.
  assert (forall c, in_alphabet c = false -> occurs c (urlEncode s) = false)
    as H by (intros c; apply occurs_outside, urlEncode_in_alphabet).
  split.
  - intros c Hc Hp. apply H. unfold in_alphabet. rewrite Hc.
    destruct (Ascii.eqb_spec c "%"); [contradiction|reflexivity].
  - repeat split; apply H; reflexivity.
Qed.

Lemma urlEncode_output_alphabet_witness :
  is_unreserved "/" = false
  /\ occurs "/" (urlEncode "a/b&c=d e") = false
  /\ occurs "&" (urlEncode "a/b&c=d e") = false.
Proof.
  destruct (urlEncode_output_alphabet "a/b&c=d e") as (H & Hamp & _).
  split; [reflexivity|]. split; [|exact Hamp].
  apply H; [reflexivity|discriminate].
Defined.

Lemma length_app (a b : string) :
  String.length (a ++ b) = String.length a + String.length b.
Proof. induction a; cbn; congruence. Qed.

Lemma byte_length (c : ascii) :
  String.length (urlEncode_byte c) = if is_unreserved c then 1 else 3.
Proof.
  pose proof (byte_alphabet c) as B. unfold byte_alphabet_ok in B.
  apply andb_prop in B as [_ B]. now apply Nat.eqb_eq.
Qed.

Lemma urlEncode_length_exact (s : string) :
  String.length (urlEncode s) = String.length s + 2 * count_escaped s
  /\ count_escaped s <= String.length s.
Proof.
  induction s as [|c s [IH IB]]; [split; reflexivity|].
  cbn [urlEncode count_escaped String.length].
  rewrite length_app, byte_length, IH.
  destruct (is_unreserved c); split; lia.
Qed.

(** X2.  [urlEncode] lengthens its input by exactly two bytes for
    every byte it escapes; the output is never shorter than the input
    and never more than three times as long. *)
Theorem urlEncode_length (s : string) :
  String.length (urlEncode s) = String.length s + 2 * count_escaped s
  /\ String.length s <= String.length (urlEncode s) <= 3 * String.length s.
Proof.
  destruct (urlEncode_length_exact s) as [E B]. split; [exact E|lia].
Qed.

(** X3.  Encoding a text in pieces and joining the results is the
    same as encoding it whole. *)
Theorem urlEncode_app (a b : string) :
  urlEncode (a ++ b) = urlEncode a ++ urlEncode b.
Proof.
  induction a as [|c a IH]; [reflexivity|].
  cbn [urlEncode append]. fold (append a b). rewrite IH.
  now rewrite TextFacts.append_assoc.
Qed.

Lemma decode_encode (s : string) : percentDecode (urlEncode s) = s.
Proof.
  induction s as [|c s IH]; [reflexivity|].
  cbn [urlEncode]. rewrite UrlFacts.decode_byte. now rewrite IH.
Qed.

(** X4.  [urlEncode] is injective: two different byte sequences never
    have the same encoding. *)
Theorem urlEncode_injective (a b : string) :
  urlEncode a = urlEncode b -> a = b.
Proof.
  intros H. rewrite <- (decode_encode a), <- (decode_encode b). now rewrite H.
Qed.

Lemma urlEncode_injective_witness :
  urlEncode "a b" = "a%20b" /\ forall t, urlEncode t = "a%20b" -> t = "a b".
Proof.
  split; [reflexivity|].
  intros t H. apply urlEncode_injective. exact H.
Defined.

(** X5.  [urlEncode] returns its input unchanged exactly when the
    input has none but alphanumeric bytes and [-], [_], [.], [~]; in
    particular encoding an encoded text that has a [%] changes it
    again. *)
Theorem urlEncode_fixed_points (s : string) :
  urlEncode s = s <-> all_chars is_unreserved s = true.
Proof.
  split.
  - intros H.
    assert (count_escaped s = 0) as Z.
    { pose proof (proj1 (urlEncode_length_exact s)) as L. rewrite H in L. lia. }
    clear H. induction s as [|c s IH]; [reflexivity|].
    cbn in Z |- *. destruct (is_unreserved c); [auto|discriminate].
  - induction s as [|c s IH]; [reflexivity|].
    cbn [all_chars]. intros H. apply andb_prop in H as [Hc Hs].
    cbn [urlEncode]. rewrite (UrlFacts.unreserved_byte c Hc), (IH Hs).
    reflexivity.
Qed.

Lemma urlEncode_fixed_points_witness :
  urlEncode "abc-1.2_x~" = "abc-1.2_x~" /\ urlEncode "a%20b" <> "a%20b".
Proof.
  split.
  - apply (proj2 (urlEncode_fixed_points "abc-1.2_x~")). reflexivity.
  - intros H. apply (proj1 (urlEncode_fixed_points "a%20b")) in H.
    discriminate H.
Defined.

(** *** [serializeHttpParameters] *)

Lemma occurs_app (c : ascii) (a b : string) :
  occurs c (a ++ b) = occurs c a || occurs c b.
Proof.
  induction a as [|c' a IH]; [reflexivity|].
  cbn. rewrite IH. now rewrite orb_assoc.
Qed.

Lemma urlEncode_free_of (c : ascii) (s : string) :
  in_alphabet c = false -> occurs c (urlEncode s) = false.
Proof. intros H. exact (occurs_outside _ _ _ (urlEncode_in_alphabet s) H). Qed.

Lemma split_first_at (sep : ascii) (a b : string) :
  occurs sep a = false ->
  split_first sep (a ++ String sep b) = (a, Some b).
Proof.
  induction a as [|c a IH]; cbn.
  - intros _. now rewrite Ascii.eqb_refl.
  - intros H. apply orb_false_elim in H as [Hc Ha].
    rewrite Hc, (IH Ha). reflexivity.
Qed.

Lemma split_on_whole (sep : ascii) (a : string) :
  occurs sep a = false -> split_on sep a = [a].
Proof.
  induction a as [|c a IH]; cbn; [reflexivity|].
  intros H. apply orb_false_elim in H as [Hc Ha].
  rewrite Hc, (IH Ha). reflexivity.
Qed.

Lemma split_on_at (sep : ascii) (a b : string) :
  occurs sep a = false ->
  split_on sep (a ++ String sep b) = a :: split_on sep b.
Proof.
  induction a as [|c a IH]; cbn.
  - intros _. now rewrite Ascii.eqb_refl.
  - intros H. apply orb_false_elim in H as [Hc Ha].
    rewrite Hc, (IH Ha). reflexivity.
Qed.

(** One pair as [serializeHttpParameters] writes it. *)
Lemma pair_free_of_separator (k v : string) :
  occurs "&" (urlEncode k ++ "=" ++ urlEncode v) = false.
Proof.
  rewrite !occurs_app, !urlEncode_free_of by reflexivity. reflexivity.
Qed.

Lemma parse_pair_written (k v : string) :
  parse_pair (urlEncode k ++ "=" ++ urlEncode v) = (k, v).
Proof.
  unfold parse_pair.
  change (urlEncode k ++ "=" ++ urlEncode v)
    with (urlEncode k ++ String "=" (urlEncode v)).
  rewrite split_first_at by (apply urlEncode_free_of; reflexivity).
  now rewrite !decode_encode.
Qed.

Lemma append_empty (a : string) : a ++ EmptyString = a.
Proof. induction a; cbn; congruence. Qed.

Lemma serialize_from_read (ps : HttpParameters) :
  forall i count,
    ps <> [] ->
    count = (i + Z.of_nat (List.length ps))%Z ->
    map parse_pair (split_on "&" (serialize_from i count ps)) = ps.
Proof.
  induction ps as [|[k v] rest IH]; intros i count Hne Hcount;
    [contradiction|].
  cbn [serialize_from].
  destruct rest as [|p rest].
  - replace (i <? count - 1)%Z with false
      by (symmetry; apply Z.ltb_ge; cbn in Hcount; lia).
    cbn [serialize_from]. rewrite !append_empty.
    rewrite split_on_whole by apply pair_free_of_separator.
    cbn [map]. now rewrite parse_pair_written.
  - replace (i <? count - 1)%Z with true
      by (symmetry; apply Z.ltb_lt; cbn [List.length] in Hcount; lia).
    replace (urlEncode k ++ "=" ++ urlEncode v ++ "&"
             ++ serialize_from (i + 1) count (p :: rest))
      with ((urlEncode k ++ "=" ++ urlEncode v)
            ++ String "&" (serialize_from (i + 1) count (p :: rest)))
      by (rewrite !TextFacts.append_assoc; reflexivity).
    rewrite split_on_at by apply pair_free_of_separator.
    cbn [map]. rewrite parse_pair_written. f_equal.
    apply IH; [discriminate|]. cbn [List.length] in *. lia.
Qed.

Lemma serialize_from_nonempty k v rest i count :
  exists c s, serialize_from i count ((k, v) :: rest) = String c s.
Proof.
  cbn [serialize_from]. destruct (urlEncode k); cbn; eauto.
Qed.

(** X6.  Whatever the keys and values hold (also [&], [=], [%] and
    line breaks), the text [serializeHttpParameters] writes reads back
    as the same pairs in the same order: split at every [&], then at
    the first [=], and percent-decode.  The empty mapping is written
    as the empty text. *)
Theorem serializeHttpParameters_reads_back (ps : HttpParameters) :
  parseQuery (serializeHttpParameters ps) = ps
  /\ (serializeHttpParameters ps = EmptyString <-> ps = []).
Proof.
  unfold serializeHttpParameters.
  destruct ps as [|[k v] rest]; [split; [reflexivity|tauto]|].
  destruct (serialize_from_nonempty k v rest 0
              (Z.of_nat (List.length ((k, v) :: rest)))) as (c & s & E).
  split.
  - unfold parseQuery. rewrite E, <- E.
    apply serialize_from_read; [discriminate|reflexivity].
  - rewrite E. split; discriminate.
Qed.

End UrlMore.

(** ** [gzipInflate] and [request], further *)

Module RequestFacts.

Import Http HttpFacts Report.

Section Engine.

Context {Sock : Type} {socket_ops : Socket Sock} {platform : Platform Sock}.

(** *** [gzipInflate] *)

(** X7.  [gzipInflate] takes three codes of [inflate] for a failure
    and every other code for a success: when the first call leaves
    room in the buffer and returns, say, [Z_BUF_ERROR] (-5) or
    [Z_STREAM_ERROR] (-2), as on a truncated stream, the function
    returns [true] with what was produced so far; on one of the three
    codes it returns [false] with [out] as it was. *)
Theorem gzipInflate_first_call fuel input out zs zs' ret produced :
  inflateInit2 (16 + MAX_WBITS) = Some zs ->
  inflate (set_input input (to_uInt (size input)) zs) kBufferSize Z_SYNC_FLUSH
  = ((ret, produced), zs') ->
  (fatal ret = true -> gzipInflate (S fuel) input out = Some (false, out))
  /\ (fatal ret = false -> size produced <> kBufferSize ->
      gzipInflate (S fuel) input out = Some (true, out ++ produced)).
Proof.
  intros Hinit Hcall. unfold gzipInflate. rewrite Hinit.
  cbn [inflate_loop]. rewrite Hcall. fold (fatal ret).
  split; intros Hret; rewrite Hret; [reflexivity|].
  intros Hroom.
  replace (kBufferSize - size produced =? 0) with false; [reflexivity|].
  symmetry. apply Z.eqb_neq. lia.
Qed.

(** *** The shape of a call *)

Lemma log_if_quiet msg args (c : HttpClient Sock) :
  quiet args = true -> logged (log_if (verbose args) msg args c) = logged c.
Proof.
  unfold quiet, log_if, log.
  destruct (verbose args), (logger args); (discriminate || reflexivity).
Qed.

Lemma exchange_quiet url verb body args (c : HttpClient Sock) :
  quiet args = true ->
  logged (snd (exchange url verb body args c)) = logged c.
Proof.
  intros Q. unfold exchange. break_goal; cbn; rewrite ?log_if_quiet by exact Q;
    reflexivity.
Qed.

Lemma readChunks_frame fuel args x :
  forall good payload (s : Sock) (c : HttpClient Sock),
    let c' := snd (readChunks fuel args x good payload s c) in
    _mutex c' = _mutex c
    /\ (quiet args = true -> logged c' = logged c).
Proof.
  induction fuel as [|fuel IH]; intros good payload s c; [cbn; auto|].
  cbn [readChunks].
  destruct (readLine (x_cancel x) s) as [[ok line] s1].
  destruct ok; cbn [negb]; [|cbn; auto].
  destruct (if good then Stream.get_hex_u64 line else Stream.NotWritten)
    as [|chunkSize good']; [cbn; auto|].
  set (c1 := log_if (verbose args) _ args c).
  assert (_mutex c1 = _mutex c /\ (quiet args = true -> logged c1 = logged c))
    as [M L] by (split; [apply log_if_mutex | apply log_if_quiet]).
  destruct (to_size_t (size payload + to_size_t chunkSize) >? string_max_size);
    [cbn; auto|].
  destruct (readBytes _ _ _ s1) as [[ok2 chunk] s2].
  destruct ok2; cbn [negb]; [|cbn; auto].
  destruct (readLine (x_cancel x) s2) as [[ok3 t] s3].
  destruct ok3; cbn [negb]; [|cbn; auto].
  destruct (chunkSize =? 0); [cbn; auto|].
  destruct (IH good' (payload ++ chunk) s3 c1) as [M' L'].
  split; [congruence|]. intros Q. rewrite (L' Q). auto.
Qed.

Lemma readBody_frame fuel args x (c : HttpClient Sock) :
  let c' := snd (readBody fuel args x c) in
  _mutex c' = _mutex c /\ (quiet args = true -> logged c' = logged c).
Proof.
  unfold readBody.
  destruct (find "Content-Length" (x_headers x)) as [text|].
  - destruct (to_size_t (parseContentLength text) >? string_max_size);
      [cbn; auto|].
    destruct (readBytes _ _ _ _) as [[[|] chunk] s1]; cbn; auto.
  - destruct (isChunked (x_headers x)); [apply readChunks_frame|].
    destruct (x_code x =? 204); cbn; auto.
Qed.

(** [request], with the recursive call resolved: the inner call finds
    the mutex held. *)
Lemma request_unfold fuel url verb body args redirects (c : HttpClient Sock) :
  _mutex c = false ->
  request (S fuel) url verb body args redirects c
  = match exchange url verb body args (set_mutex true c) with
    | (inl response, c1) => (Returned response, set_mutex false c1)
    | (inr x, c1) =>
        if isRedirect (x_code x) args
        then
          match find "Location" (x_headers x) with
          | None =>
              (Returned (failure x MissingLocation EmptyString
                                 "Missing location header for redirect"),
               set_mutex false c1)
          | Some location =>
              if redirects >=? maxRedirects args
              then (Returned (failure x TooManyRedirects EmptyString
                                      ("Too many redirects: "
                                       ++ put_dec redirects)),
                    set_mutex false c1)
              else (match fuel with O => OutOfFuel | S _ => Deadlock end, c1)
          end
        else if String.eqb verb "HEAD"
        then (Returned (failure x Ok EmptyString EmptyString),
              set_mutex false c1)
        else conclude fuel x (readBody fuel args x c1)
    end.
Proof.
  intros Hfree. cbn [request]. rewrite Hfree.
  pose proof (exchange_mutex url verb body args (set_mutex true c)) as M.
  destruct (exchange url verb body args (set_mutex true c)) as [[r|x] c1];
    [reflexivity|].
  cbn in M.
  destruct (isRedirect (x_code x) args).
  - destruct (find "Location" (x_headers x)) as [location|]; [|reflexivity].
    destruct (redirects >=? maxRedirects args); [reflexivity|].
    destruct fuel as [|fuel]; [reflexivity|].
    rewrite (request_held _ _ _ _ _ _ _ M). reflexivity.
  - destruct (String.eqb verb "HEAD"); [reflexivity|].
    unfold conclude.
    now destruct (readBody fuel args x c1) as [[[o|p] s] c2].
Qed.

(** What [exchange] reports when it ends the call, and what it hands
    on when it does not. *)
Lemma exchange_error_shape url verb body args (c c1 : HttpClient Sock) r :
  exchange url verb body args c = (inl r, c1) ->
  payload r = EmptyString /\ downloadSize r = 0 /\ errorCode r <> Ok
  /\ ((before_status (errorCode r) = true
       /\ statusCode r = 0 /\ headers r = [])
      \/ (errorCode r = HeaderParsingError
          /\ exists line, Stream.sscanf_status line = Some (statusCode r)))
  /\ ((before_write (errorCode r) = true /\ uploadSize r = 0)
      \/ (before_write (errorCode r) = false
          /\ exists u, UrlParser_parse url = Some u
                       /\ uploadSize r
                          = size (buildRequest verb (host u) (path u) body
                                               args))).
Proof.
  unfold exchange. intros H. break_in H; try discriminate;
    inversion H; subst; clear H; cbn;
    repeat split; try discriminate; eauto 8.
Qed.

Lemma exchange_handover url verb body args (c c1 : HttpClient Sock) x :
  exchange url verb body args c = (inr x, c1) ->
  (exists line, Stream.sscanf_status line = Some (x_code x))
  /\ exists u, UrlParser_parse url = Some u
               /\ x_uploadSize x
                  = size (buildRequest verb (host u) (path u) body args).
Proof.
  unfold exchange. intros H. break_in H; try discriminate;
    inversion H; subst; clear H; cbn; eauto.
Qed.

Lemma readChunks_error_shape fuel args x :
  forall good payload (s : Sock) (c : HttpClient Sock) r,
    fst (fst (readChunks fuel args x good payload s c)) = inl (Returned r) ->
    errorCode r = ChunkReadError
    /\ statusCode r = x_code x /\ headers r = x_headers x
    /\ uploadSize r = x_uploadSize x /\ downloadSize r = 0.
Proof.
  induction fuel as [|fuel IH]; intros good payload s c r H; [discriminate|].
  cbn [readChunks] in H.
  destruct (readLine (x_cancel x) s) as [[ok line] s1].
  destruct ok; cbn [negb] in H;
    [|cbn in H; inversion H; cbn; auto].
  destruct (if good then Stream.get_hex_u64 line else Stream.NotWritten)
    as [|chunkSize good']; [discriminate|].
  destruct (to_size_t (size payload + to_size_t chunkSize) >? string_max_size);
    [discriminate|].
  destruct (readBytes (to_size_t chunkSize) (onProgressCallback args)
                      (x_cancel x) s1) as [[ok2 chunk] s2].
  destruct ok2; cbn [negb] in H;
    [|cbn in H; inversion H; cbn; auto].
  destruct (readLine (x_cancel x) s2) as [[ok3 t] s3].
  destruct ok3; cbn [negb] in H;
    [|cbn in H; inversion H; cbn; auto].
  destruct (chunkSize =? 0); [discriminate|].
  exact (IH _ _ _ _ _ H).
Qed.

Lemma readBody_error_shape fuel args x (c : HttpClient Sock) r :
  fst (fst (readBody fuel args x c)) = inl (Returned r) ->
  (errorCode r = ChunkReadError \/ errorCode r = CannotReadBody)
  /\ statusCode r = x_code x /\ headers r = x_headers x
  /\ uploadSize r = x_uploadSize x /\ downloadSize r = 0.
Proof.
  unfold readBody. intros H.
  destruct (find "Content-Length" (x_headers x)) as [text|].
  - destruct (to_size_t (parseContentLength text) >? string_max_size);
      [discriminate|].
    destruct (readBytes _ _ _ _) as [[ok chunk] s1].
    destruct ok; cbn in H; [discriminate|].
    inversion H. cbn. auto.
  - destruct (isChunked (x_headers x)).
    + apply readChunks_error_shape in H. tauto.
    + destruct (x_code x =? 204); cbn in H; [discriminate|].
      inversion H. cbn. auto.
Qed.

Lemma find_at_key (k : string) (h : WebSocketHttpHeaders) :
  find k (snd (at_key k h)) = Some (fst (at_key k h)).
Proof.
  unfold at_key. destruct (find k h) as [v|] eqn:E; cbn; [exact E|].
  now apply find_added.
Qed.

Lemma finish_shape fuel x body_read r :
  finish fuel x body_read = Returned r ->
  statusCode r = x_code x /\ uploadSize r = x_uploadSize x
  /\ downloadSize r = size body_read
  /\ ((errorCode r = Gzip /\ payload r = body_read)
      \/ (errorCode r = Ok
          /\ (find "Content-Encoding" (headers r) <> Some "gzip" ->
              payload r = body_read))).
Proof.
  unfold finish. intros H.
  pose proof (find_at_key "Content-Encoding" (x_headers x)) as F.
  destruct (at_key "Content-Encoding" (x_headers x)) as [encoding h].
  cbn in F.
  destruct (String.eqb_spec encoding "gzip") as [-> | Hplain].
  - destruct (gzipInflate fuel body_read EmptyString) as [[[|] d]|];
      [| |discriminate]; inversion H; subst; cbn; repeat split; auto.
    right. split; [reflexivity|]. intros N. contradiction.
  - inversion H; subst; cbn. repeat split. right. auto.
Qed.

(** A response out of the body stage or the final stage. *)
Lemma conclude_shape fuel args x (c1 c' : HttpClient Sock) r :
  conclude fuel x (readBody fuel args x c1) = (Returned r, c') ->
  statusCode r = x_code x /\ uploadSize r = x_uploadSize x
  /\ (((errorCode r = ChunkReadError \/ errorCode r = CannotReadBody)
       /\ downloadSize r = 0)
      \/ (errorCode r = Gzip /\ downloadSize r = size (payload r))
      \/ (errorCode r = Ok
          /\ (find "Content-Encoding" (headers r) <> Some "gzip" ->
              downloadSize r = size (payload r)))).
Proof.
  unfold conclude.
  destruct (readBody fuel args x c1) as [[[o|p] s] c2] eqn:B; intros H.
  - destruct o; cbn in H; try discriminate. inversion H; subst.
    destruct (readBody_error_shape fuel args x c1 r) as (E & S1 & _ & U & D);
      [now rewrite B|].
    auto.
  - destruct (finish fuel x p) as [r'| | | |] eqn:F; cbn in H;
      try discriminate.
    inversion H; subst.
    destruct (finish_shape _ _ _ _ F) as (S1 & U & D & [[E P] | [E P]]).
    + split; [exact S1|]. split; [exact U|]. right. left.
      split; [exact E|]. now rewrite P.
    + split; [exact S1|]. split; [exact U|]. right. right.
      split; [exact E|]. intros N. now rewrite (P N).
Qed.

(** *** What a call reports *)

(** X8.  A call made with the lock free gives it back exactly when it
    comes to an end: after a returned response (whatever its error
    code) and after a [length_error] the mutex is unlocked; it is
    left locked only by a call that does not complete. *)
Theorem request_lock_discipline fuel url verb body args redirects
        (c : HttpClient Sock) :
  _mutex c = false ->
  _mutex (snd (request (S fuel) url verb body args redirects c))
  = holds_lock (fst (request (S fuel) url verb body args redirects c)).
Proof.
  intros Hfree. rewrite (request_unfold _ _ _ _ _ _ _ Hfree).
  pose proof (exchange_mutex url verb body args (set_mutex true c)) as M.
  destruct (exchange url verb body args (set_mutex true c)) as [[r|x] c1];
    [reflexivity|].
  cbn in M.
  destruct (isRedirect (x_code x) args).
  - destruct (find "Location" (x_headers x)); [|reflexivity].
    destruct (redirects >=? maxRedirects args); [reflexivity|].
    destruct fuel; exact M.
  - destruct (String.eqb verb "HEAD"); [reflexivity|].
    pose proof (readBody_frame fuel args x c1) as [M2 _].
    unfold conclude.
    destruct (readBody fuel args x c1) as [[[o|p] s] c2]; cbn in M2.
    + destruct o; cbn; congruence.
    + destruct (finish fuel x p); cbn; congruence.
Qed.

(** X9.  Unless [verbose] is set and a logger is installed, a call
    hands nothing to the logger, however it ends. *)
Theorem request_quiet fuel url verb body args redirects (c : HttpClient Sock) :
  quiet args = true ->
  logged (snd (request fuel url verb body args redirects c)) = logged c.
Proof.
  intros Q. destruct fuel as [|fuel]; [reflexivity|].
  destruct (_mutex c) eqn:Hm; [now rewrite request_held|].
  rewrite (request_unfold _ _ _ _ _ _ _ Hm).
  pose proof (exchange_quiet url verb body args (set_mutex true c) Q) as E.
  destruct (exchange url verb body args (set_mutex true c)) as [[r|x] c1];
    [exact E|].
  cbn in E.
  destruct (isRedirect (x_code x) args).
  - destruct (find "Location" (x_headers x)); [|exact E].
    destruct (redirects >=? maxRedirects args); exact E.
  - destruct (String.eqb verb "HEAD"); [exact E|].
    pose proof (readBody_frame fuel args x c1) as [_ L]. specialize (L Q).
    unfold conclude.
    destruct (readBody fuel args x c1) as [[[o|p] s] c2]; cbn in L.
    + destruct o; cbn; congruence.
    + destruct (finish fuel x p); cbn; congruence.
Qed.

(** X10.  A response with one of the codes [UrlMalformed],
    [CannotCreateSocket], [CannotConnect], [SendError],
    [CannotReadStatusLine], [MissingStatus] has status code 0, no
    headers, an empty body and a download size of 0; every other
    response, successful or not, carries the status code that was
    parsed from the status line. *)
Theorem status_code_reported fuel url verb body args redirects
        (c c' : HttpClient Sock) r :
  _mutex c = false ->
  request (S fuel) url verb body args redirects c = (Returned r, c') ->
  if before_status (errorCode r)
  then statusCode r = 0 /\ headers r = [] /\ payload r = EmptyString
       /\ downloadSize r = 0
  else errorCode r = HeaderParsingError
       \/ exists x c1,
           exchange url verb body args (set_mutex true c) = (inr x, c1)
           /\ statusCode r = x_code x.
Proof.
  intros Hfree. rewrite (request_unfold _ _ _ _ _ _ _ Hfree).
  destruct (exchange url verb body args (set_mutex true c)) as [[r0|x] c1]
    eqn:Hx.
  - intros H. inversion H; subst.
    destruct (exchange_error_shape _ _ _ _ _ _ _ Hx)
      as (P & D & _ & [(B & S1 & Hd) | (B & L)] & _); rewrite B; cbn; auto.
  - assert (forall r', statusCode r' = x_code x ->
                       before_status (errorCode r') = false ->
                       if before_status (errorCode r')
                       then statusCode r' = 0 /\ headers r' = []
                            /\ payload r' = EmptyString /\ downloadSize r' = 0
                       else errorCode r' = HeaderParsingError
                            \/ exists x' c2,
                                (@inr HttpResponse Exchange x, c1)
                                = (inr x', c2)
                                /\ statusCode r' = x_code x') as Done.
    { intros r' S1 B. rewrite B. right. exists x, c1. auto. }
    destruct (isRedirect (x_code x) args).
    + destruct (find "Location" (x_headers x)).
      * destruct (redirects >=? maxRedirects args);
          [|destruct fuel; discriminate].
        intros H. inversion H; subst. now apply Done.
      * intros H. inversion H; subst. now apply Done.
    + destruct (String.eqb verb "HEAD").
      * intros H. inversion H; subst. now apply Done.
      * intros H.
        destruct (conclude_shape _ _ _ _ _ _ H)
          as (S1 & _ & [[[E|E] _] | [[E _] | [E _]]]);
          apply Done; auto; rewrite E; reflexivity.
Qed.

(** X11.  The download size a response reports is the size of the
    body as it was read, before decompression: it is 0 in every
    response with an error code other than [Gzip] (also in a
    [ChunkReadError] response that carries the chunks decoded so far),
    it is the size of the payload in a [Gzip] response, which keeps the
    compressed body, and in a successful response whose
    [Content-Encoding] is not [gzip]. *)
Theorem downloadSize_reported fuel url verb body args redirects
        (c c' : HttpClient Sock) r :
  _mutex c = false ->
  request (S fuel) url verb body args redirects c = (Returned r, c') ->
  (errorCode r <> Ok -> errorCode r <> Gzip -> downloadSize r = 0)
  /\ (errorCode r = Gzip -> downloadSize r = size (payload r))
  /\ (errorCode r = Ok ->
      find "Content-Encoding" (headers r) <> Some "gzip" ->
      downloadSize r = size (payload r)).
Proof.
  intros Hfree. rewrite (request_unfold _ _ _ _ _ _ _ Hfree).
  destruct (exchange url verb body args (set_mutex true c)) as [[r0|x] c1]
    eqn:Hx.
  - intros H. inversion H; subst.
    destruct (exchange_error_shape _ _ _ _ _ _ _ Hx) as (P & D & N & B & _).
    split; [intros; exact D|]. split; [|intros; contradiction].
    intros E. rewrite E in B. destruct B as [(B & _) | (B & _)]; discriminate.
  - destruct (isRedirect (x_code x) args).
    + destruct (find "Location" (x_headers x)).
      * destruct (redirects >=? maxRedirects args);
          [|destruct fuel; discriminate].
        intros H. inversion H; subst. cbn.
        repeat split; intros; (reflexivity || discriminate).
      * intros H. inversion H; subst. cbn.
        repeat split; intros; (reflexivity || discriminate).
    + destruct (String.eqb verb "HEAD").
      * intros H. inversion H; subst. cbn.
        repeat split; intros; (reflexivity || discriminate || contradiction).
      * intros H.
        destruct (conclude_shape _ _ _ _ _ _ H)
          as (_ & _ & [[[E|E] D] | [[E D] | [E D]]]);
          rewrite E; repeat split; intros;
            (assumption || discriminate || contradiction || auto).
Qed.

(** X12.  The upload size a response reports is 0 when the call ended
    before the request was written ([UrlMalformed],
    [CannotCreateSocket], [CannotConnect], [SendError]) and otherwise
    the size of the whole request text, body included, whatever
    happened afterwards. *)
Theorem uploadSize_reported fuel url verb body args redirects
        (c c' : HttpClient Sock) r :
  _mutex c = false ->
  request (S fuel) url verb body args redirects c = (Returned r, c') ->
  if before_write (errorCode r)
  then uploadSize r = 0
  else exists u, UrlParser_parse url = Some u
                 /\ uploadSize r
                    = size (buildRequest verb (host u) (path u) body args).
Proof.
  intros Hfree. rewrite (request_unfold _ _ _ _ _ _ _ Hfree).
  destruct (exchange url verb body args (set_mutex true c)) as [[r0|x] c1]
    eqn:Hx.
  - intros H. inversion H; subst.
    destruct (exchange_error_shape _ _ _ _ _ _ _ Hx)
      as (_ & _ & _ & _ & [(B & U) | (B & U)]); rewrite B; exact U.
  - destruct (exchange_handover _ _ _ _ _ _ _ Hx) as [_ U].
    destruct (isRedirect (x_code x) args).
    + destruct (find "Location" (x_headers x)).
      * destruct (redirects >=? maxRedirects args);
          [|destruct fuel; discriminate].
        intros H. inversion H; subst. exact U.
      * intros H. inversion H; subst. exact U.
    + destruct (String.eqb verb "HEAD").
      * intros H. inversion H; subst. exact U.
      * intros H.
        destruct (conclude_shape _ _ _ _ _ _ H)
          as (_ & Up & [[[E|E] _] | [[E _] | [E _]]]);
          rewrite E; cbn; rewrite Up; exact U.
Qed.

(** X30.  Only a status line that starts with the text [HTTP/1.1]
    is accepted: when the request was written and the line read back
    starts otherwise (an [HTTP/1.0] or [HTTP/2] answer, say), the call
    returns [MissingStatus] with status code 0 and no headers, the
    upload size being that of the request sent. *)
Theorem status_line_must_be_http_1_1 fuel url verb body args redirects
        (c : HttpClient Sock) u errorMsg (s0 s1 s2 s3 : Sock) errMsg line :
  _mutex c = false ->
  UrlParser_parse url = Some u ->
  createSocket (String.eqb (protocol u) "https") = (Some s0, errorMsg) ->
  connect (host u) (port u) (connectTimeout args) s0 = ((true, errMsg), s1) ->
  writeBytes (buildRequest verb (host u) (path u) body args)
             (transferTimeout args) s1 = (true, s2) ->
  readLine (transferTimeout args) s2 = ((true, line), s3) ->
  starts_with "HTTP/1.1" line = false ->
  fst (request (S fuel) url verb body args redirects c)
  = Returned (mkResponse 0 MissingStatus [] EmptyString
                         "Cannot parse response code from status line"
                         (size (buildRequest verb (host u) (path u) body args))
                         0).
Proof.
  intros Hfree Hu Hs Hc Hw Hl Hline.
  rewrite (request_unfold _ _ _ _ _ _ _ Hfree).
  unfold exchange. rewrite Hu, Hs, Hc. cbn [negb]. rewrite Hw. cbn [negb].
  rewrite Hl. cbn [negb].
  unfold Stream.sscanf_status. unfold starts_with in Hline.
  destruct (strip_prefix "HTTP/1.1" line); [discriminate|]. reflexivity.
Qed.

(** *** Redirects *)

(** X13.  A redirect response (status 301 to 308 with
    [followRedirects] set) that is not followed ends the call at once,
    for every verb: [MissingLocation] when it has no [Location]
    header, [TooManyRedirects] when it has one and [redirects] has
    reached [maxRedirects] (so always, for [maxRedirects] of 0 or
    less).  The response has the status code and the headers of the
    redirect and an empty body, and nothing is read after the
    headers. *)
Theorem redirect_refused fuel url verb body args redirects
        (c c1 : HttpClient Sock) x :
  _mutex c = false ->
  exchange url verb body args (set_mutex true c) = (inr x, c1) ->
  isRedirect (x_code x) args = true ->
  (find "Location" (x_headers x) = None ->
   request (S fuel) url verb body args redirects c
   = (Returned (failure x MissingLocation EmptyString
                        "Missing location header for redirect"),
      set_mutex false c1))
  /\ (forall location,
         find "Location" (x_headers x) = Some location ->
         maxRedirects args <= redirects ->
         request (S fuel) url verb body args redirects c
         = (Returned (failure x TooManyRedirects EmptyString
                              ("Too many redirects: " ++ put_dec redirects)),
            set_mutex false c1))
  /\ _socket (set_mutex false c1) = Some (x_socket x).
Proof.
  intros Hfree Hx Hredir.
  rewrite (request_unfold _ _ _ _ _ _ _ Hfree), Hx, Hredir.
  split; [|split].
  - now intros ->.
  - intros location -> Hdepth.
    rewrite Z.geb_leb, (proj2 (Z.leb_le _ _) Hdepth). reflexivity.
  - cbn. exact (exchange_socket _ _ _ _ _ _ _ Hx).
Qed.

Lemma readChunks_never_blocks fuel args x :
  forall good payload (s : Sock) (c : HttpClient Sock),
    fst (fst (readChunks fuel args x good payload s c)) <> inl Deadlock.
Proof.
  induction fuel as [|fuel IH]; intros good payload s c; [discriminate|].
  cbn [readChunks].
  destruct (readLine (x_cancel x) s) as [[[|] line] s1]; cbn [negb];
    [|discriminate].
  destruct (if good then Stream.get_hex_u64 line else Stream.NotWritten)
    as [|chunkSize good']; [discriminate|].
  destruct (to_size_t (size payload + to_size_t chunkSize) >? string_max_size);
    [discriminate|].
  destruct (readBytes _ _ _ s1) as [[[|] chunk] s2]; cbn [negb];
    [|discriminate].
  destruct (readLine (x_cancel x) s2) as [[[|] t] s3]; cbn [negb];
    [|discriminate].
  destruct (chunkSize =? 0); [discriminate|apply IH].
Qed.

Lemma conclude_never_blocks fuel args x (c1 : HttpClient Sock) :
  fst (conclude fuel x (readBody fuel args x c1)) <> Deadlock.
Proof.
  unfold conclude.
  destruct (readBody fuel args x c1) as [[[o|p] s] c2] eqn:B.
  - assert (o <> Deadlock) as N.
    { intros ->. revert B. unfold readBody.
      destruct (find "Content-Length" (x_headers x)) as [text|].
      - destruct (to_size_t (parseContentLength text) >? string_max_size);
          [discriminate|].
        destruct (readBytes _ _ _ _) as [[[|] chunk] s1]; discriminate.
      - destruct (isChunked (x_headers x)).
        + intros B.
          apply (readChunks_never_blocks fuel args x true EmptyString
                                         (x_socket x) c1).
          now rewrite B.
        + destruct (x_code x =? 204); discriminate. }
    destruct o; cbn; congruence.
  - unfold finish.
    destruct (at_key "Content-Encoding" (x_headers x)) as [encoding h].
    destruct (String.eqb encoding "gzip"); [|discriminate].
    destruct (gzipInflate fuel p EmptyString) as [[[|] d]|]; discriminate.
Qed.

(** X14.  A call blocks on the instance lock in exactly two cases:
    the lock is held when the call is made, or the call meets a
    redirect that it goes on to follow (status 301 to 308,
    [followRedirects] set, a [Location] header, [redirects] below
    [maxRedirects]).  No other path through [request] ever waits for
    the lock. *)
Theorem deadlock_exactly fuel url verb body args redirects
        (c : HttpClient Sock) :
  fst (request (S (S fuel)) url verb body args redirects c) = Deadlock
  <-> _mutex c = true
      \/ exists x c1 location,
          exchange url verb body args (set_mutex true c) = (inr x, c1)
          /\ isRedirect (x_code x) args = true
          /\ find "Location" (x_headers x) = Some location
          /\ redirects < maxRedirects args.
Proof.
  destruct (_mutex c) eqn:Hm.
  - rewrite (request_held _ _ _ _ _ _ _ Hm). cbn. tauto.
  - rewrite (request_unfold _ _ _ _ _ _ _ Hm).
    destruct (exchange url verb body args (set_mutex true c)) as [[r|x] c1].
    { cbn. split; [discriminate|].
      intros [H | (x & c2 & l & H & _)]; discriminate. }
    destruct (isRedirect (x_code x) args) eqn:Hredir.
    + destruct (find "Location" (x_headers x)) as [location|] eqn:Hloc.
      * destruct (redirects >=? maxRedirects args) eqn:Hdepth.
        -- cbn. split; [discriminate|].
           intros [H | (x' & c2 & l & H & _ & _ & D)]; [discriminate|].
           rewrite Z.geb_leb in Hdepth. apply Z.leb_le in Hdepth. lia.
        -- cbn. split; [|reflexivity]. intros _. right.
           exists x, c1, location. repeat split; auto.
           rewrite Z.geb_leb in Hdepth. now apply Z.leb_gt in Hdepth.
      * cbn. split; [discriminate|].
        intros [H | (x' & c2 & l & H & _ & L & _)]; [discriminate|].
        inversion H; subst. congruence.
    + split.
      * destruct (String.eqb verb "HEAD"); [discriminate|].
        intros H. now apply conclude_never_blocks in H.
      * intros [H | (x' & c2 & l & H & R & _)]; [discriminate|].
        inversion H; subst. congruence.
Qed.

(** *** Body framing, edge cases *)

Lemma parseContentLength_range (text : string) :
  Stream.SSIZE_MIN <= parseContentLength text <= Stream.SSIZE_MAX.
Proof.
  unfold parseContentLength, Stream.get_dec_ssize.
  destruct (skipws text); [vm_compute; split; discriminate|].
  destruct (Stream.sign_of _) as [negative s1].
  destruct (digits_from 10 s1 0 0) as [[count v] rest].
  destruct count; [vm_compute; split; discriminate|].
  destruct (_ >? Stream.SSIZE_MAX) eqn:Hi;
    [vm_compute; split; discriminate|].
  destruct (_ <? Stream.SSIZE_MIN) eqn:Lo;
    [vm_compute; split; discriminate|].
  rewrite Z.gtb_ltb in Hi. apply Z.ltb_ge in Hi, Lo. lia.
Qed.

(** X15.  A [Content-Length] whose value is blank or negative is
    taken as a length of 2^64 - 1 or thereabouts: the value read
    stays at its initial -1 when the text is blank, a negative number
    is kept, and the conversion to [size_t] wraps it.  With a
    [max_size()] below 2^63 the call then leaves by
    [std::length_error] out of [payload.reserve], before anything is
    read, instead of returning a response. *)
Theorem negative_content_length fuel url verb body args redirects
        (c c1 : HttpClient Sock) x text :
  _mutex c = false ->
  exchange url verb body args (set_mutex true c) = (inr x, c1) ->
  isRedirect (x_code x) args = false ->
  String.eqb verb "HEAD" = false ->
  find "Content-Length" (x_headers x) = Some text ->
  string_max_size < 2 ^ 63 ->
  (skipws text = EmptyString -> parseContentLength text = -1)
  /\ (parseContentLength text < 0 ->
      request (S fuel) url verb body args redirects c
      = (LengthError, set_mutex false (set_socket (Some (x_socket x)) c1))).
Proof.
  intros Hfree Hx Hredir Hverb Hlen Hmax. split.
  - intros B. unfold parseContentLength, Stream.get_dec_ssize. now rewrite B.
  - intros Hneg.
    rewrite (request_unfold _ _ _ _ _ _ _ Hfree), Hx, Hredir, Hverb.
    unfold readBody. rewrite Hlen.
    replace (to_size_t (parseContentLength text) >? string_max_size) with true;
      [reflexivity|].
    symmetry. rewrite Z.gtb_ltb. apply Z.ltb_lt.
    pose proof (parseContentLength_range text) as [Lo _].
    unfold to_size_t, Stream.SSIZE_MIN in *.
    replace (parseContentLength text mod 2 ^ 64)
      with (parseContentLength text + 2 ^ 64).
    + lia.
    + apply Z.mod_unique with (q := -1); lia.
Qed.

(** X28.  A [Content-Length] whose value does not start with a
    digit or a sign (after white space) is taken as a length of 0: the
    extraction fails and stores 0, nothing checks it, and the call goes
    on with a read of 0 bytes as for an empty body. *)
Theorem unparsable_content_length fuel url verb body args redirects
        (c c1 : HttpClient Sock) x text :
  _mutex c = false ->
  exchange url verb body args (set_mutex true c) = (inr x, c1) ->
  isRedirect (x_code x) args = false ->
  String.eqb verb "HEAD" = false ->
  find "Content-Length" (x_headers x) = Some text ->
  starts_without_decimal text = true ->
  0 <= string_max_size ->
  parseContentLength text = 0
  /\ request (S fuel) url verb body args redirects c
     = conclude fuel x
         match readBytes 0 (onProgressCallback args) (x_cancel x)
                         (x_socket x) with
         | ((true, data), s) => (inr data, s, c1)
         | ((false, _), s) =>
             (inl (Returned (failure x ChunkReadError EmptyString
                                     "Cannot read chunk")), s, c1)
         end.
Proof.
  intros Hfree Hx Hredir Hverb Hlen Hbad Hmax.
  assert (parseContentLength text = 0) as Z.
  { unfold parseContentLength, Stream.get_dec_ssize.
    unfold starts_without_decimal in Hbad.
    destruct (skipws text) as [|ch rest]; [discriminate|].
    destruct (digit_value 10 ch) eqn:D; [discriminate|].
    assert (Stream.sign_of (String ch rest) = (false, String ch rest)) as ->.
    { destruct ch as [[] [] [] [] [] [] [] []]; try reflexivity;
        discriminate. }
    cbn. now rewrite D. }
  split; [exact Z|].
  rewrite (request_unfold _ _ _ _ _ _ _ Hfree), Hx, Hredir, Hverb.
  f_equal. unfold readBody. rewrite Hlen, Z.
  change (to_size_t 0) with 0.
  replace (0 >? string_max_size) with false
    by (symmetry; rewrite Z.gtb_ltb; apply Z.ltb_ge; lia).
  destruct (readBytes _ _ _ _) as [[[|] data] s]; reflexivity.
Qed.

(** *** The chunked decoder, edge cases *)

Lemma hex_digit_plain (c : ascii) :
  digit_value 16 c <> None ->
  isspace c = false /\ Ascii.eqb c "-" = false /\ Ascii.eqb c "+" = false
  /\ Ascii.eqb c "x" = false /\ Ascii.eqb c "X" = false.
Proof.
  destruct c as [[] [] [] [] [] [] [] []]; vm_compute; intros H;
    try (exfalso; apply H; reflexivity); auto.
Qed.

Lemma digits_from_all (s : string) :
  forall count acc,
    Stream.all_hex_digits s = true ->
    exists v, digits_from 16 s count acc
              = ((count + String.length s)%nat, v, EmptyString).
Proof.
  induction s as [|c s IH]; intros count acc H; cbn.
  - exists acc. now rewrite Nat.add_0_r.
  - cbn in H. destruct (digit_value 16 c) as [d|]; [|discriminate].
    destruct (IH (S count) (acc * 16 + d) H) as [v E].
    exists v. rewrite E. f_equal. f_equal. lia.
Qed.

Lemma bare_number_ends_stream (line : string) v good :
  Stream.well_formed_hex line = true ->
  Stream.get_hex_u64 line = Stream.Written v good ->
  good = false.
Proof.
  unfold Stream.well_formed_hex. intros W.
  apply andb_prop in W as [Hne Hall].
  destruct line as [|c rest]; [discriminate|].
  assert (digit_value 16 c <> None) as Hc
      by (cbn in Hall; destruct (digit_value 16 c); [discriminate|discriminate]).
  destruct (hex_digit_plain c Hc) as (Hsp & Hm & Hp & _).
  unfold Stream.get_hex_u64. cbn [skipws]. rewrite Hsp.
  assert (Stream.sign_of (String c rest) = (false, String c rest)) as ->.
  { unfold Stream.sign_of.
    destruct (Ascii.eqb_spec c "-"); [discriminate|].
    destruct (Ascii.eqb_spec c "+"); [discriminate|].
    destruct c as [[] [] [] [] [] [] [] []]; try reflexivity; congruence. }
  assert (Stream.strip_0x (String c rest) = String c rest) as ->.
  { destruct rest as [|c2 rest2]; [destruct c as [[] [] [] [] [] [] [] []];
                                   reflexivity|].
    assert (digit_value 16 c2 <> None) as Hc2.
    { cbn in Hall. destruct (digit_value 16 c); [|discriminate].
      destruct (digit_value 16 c2); discriminate. }
    destruct (hex_digit_plain c2 Hc2) as (_ & _ & _ & Hx & HX).
    unfold Stream.strip_0x.
    destruct c as [[] [] [] [] [] [] [] []]; try reflexivity;
      destruct c2 as [[] [] [] [] [] [] [] []]; try reflexivity;
        discriminate. }
  destruct (digits_from_all (String c rest) 0 0 Hall) as [v' E].
  rewrite E. cbn [Nat.add String.length].
  destruct (v' >? Stream.UINT64_MAX); intros H; inversion H; reflexivity.
Qed.

(** X16.  The decoder reuses one [stringstream] for all size lines and
    never clears its state.  A size line that is a hexadecimal number
    and nothing else (no line terminator, no chunk extension after the
    digits) is extracted up to the end of the buffer, which leaves the
    stream at end-of-file; if the chunk is not the last one, the next
    size line is not inserted and [chunkSize] is read without having
    been written. *)
Theorem chunk_size_at_end_of_buffer fuel args x payload (s s1 s2 s3 s4 : Sock)
        (c : HttpClient Sock) line v good chunk t line2 :
  readLine (x_cancel x) s = ((true, line), s1) ->
  Stream.well_formed_hex line = true ->
  Stream.get_hex_u64 line = Stream.Written v good ->
  v <> 0 ->
  to_size_t (size payload + to_size_t v) <= string_max_size ->
  readBytes (to_size_t v) (onProgressCallback args) (x_cancel x) s1
  = ((true, chunk), s2) ->
  readLine (x_cancel x) s2 = ((true, t), s3) ->
  readLine (x_cancel x) s3 = ((true, line2), s4) ->
  good = false
  /\ fst (fst (readChunks (S (S fuel)) args x true payload s c))
     = inl Undefined.
Proof.
  intros Hline Hbare Hget Hv Hroom Hchunk Hend Hnext.
  assert (good = false) as -> by exact (bare_number_ends_stream _ _ _ Hbare Hget).
  split; [reflexivity|].
  cbn [readChunks]. rewrite Hline. cbn [negb]. rewrite Hget.
  replace (to_size_t (size payload + to_size_t v) >? string_max_size)
    with false by (symmetry; rewrite Z.gtb_ltb; apply Z.ltb_ge; lia).
  rewrite Hchunk. cbn [negb]. rewrite Hend. cbn [negb].
  rewrite (proj2 (Z.eqb_neq _ _) Hv).
  rewrite Hnext. reflexivity.
Qed.

(** X17.  The decoder only ever appends to the body: the body it
    hands on when the loop is left, and the payload of every
    [ChunkReadError] response it returns, begin with what had been
    decoded before. *)
Theorem readChunks_keeps_body fuel args x :
  forall good payload (s : Sock) (c : HttpClient Sock),
    match fst (fst (readChunks fuel args x good payload s c)) with
    | inr decoded => exists more, decoded = payload ++ more
    | inl (Returned r) => exists more, Http.payload r = payload ++ more
    | inl _ => True
    end.
Proof.
  induction fuel as [|fuel IH]; intros good payload s c; [exact I|].
  cbn [readChunks].
  destruct (readLine (x_cancel x) s) as [[[|] line] s1]; cbn [negb];
    [|cbn; exists EmptyString; now rewrite UrlMore.append_empty].
  destruct (if good then Stream.get_hex_u64 line else Stream.NotWritten)
    as [|chunkSize good']; [exact I|].
  destruct (to_size_t (size payload + to_size_t chunkSize) >? string_max_size);
    [exact I|].
  destruct (readBytes _ _ _ s1) as [[[|] chunk] s2]; cbn [negb];
    [|cbn; exists EmptyString; now rewrite UrlMore.append_empty].
  destruct (readLine (x_cancel x) s2) as [[[|] t] s3]; cbn [negb];
    [|cbn; now exists chunk].
  destruct (chunkSize =? 0); [cbn; now exists chunk|].
  specialize (IH good' (payload ++ chunk) s3
                 (log_if (verbose args)
                         ("Reading " ++ put_dec chunkSize ++ " bytes" ++ endl)
                         args c)).
  destruct (fst (fst (readChunks fuel args x good' (payload ++ chunk) s3 _)))
    as [[r| | | |]|decoded]; auto;
    destruct IH as [more E]; exists (chunk ++ more);
      now rewrite E, TextFacts.append_assoc.
Qed.

End Engine.

End RequestFacts.

(** ** The worker, further *)

Module AsyncMore.

Import Async Lifecycle.

Local Open Scope list_scope.
Local Open Scope nat_scope.

Section Dispatcher.

Context {Task : Type} (returns : Task -> bool).

Lemma run_snoc (trace : list (action Task)) (a : action Task) :
  forall s, run returns (trace ++ [a]) s = step returns a (run returns trace s).
Proof.
  induction trace as [|b trace IH]; intros s; [reflexivity|].
  cbn. apply IH.
Qed.

Lemma enqueued_snoc (trace : list (action Task)) (a : action Task) :
  enqueued (trace ++ [a])
  = enqueued trace ++ match a with Enqueue t => [t] | _ => [] end.
Proof.
  induction trace as [|b trace IH]; cbn.
  - destruct a; reflexivity.
  - rewrite IH. destruct b; reflexivity.
Qed.

Lemma history_step (all : list Task) (a : action Task) (s : state Task) :
  history all s ->
  history (all ++ match a with Enqueue t => [t] | _ => [] end)
          (step returns a s).
Proof.
  intros (Ha & dropped & E & D).
  destruct s as [async stop queue w req cal]. cbn in Ha. subst async.
  unfold history, in_hand in *. cbn in E, D |- *.
  destruct a as [| t |]; cbn.
  - rewrite app_nil_r.
    destruct w; cbn in *.
    + destruct (negb stop && _); cbn; split; auto; exists dropped; auto.
      split; [exact E|]. destruct D as [D | [D _]]; [auto|discriminate].
    + destruct D as [-> | [D _]]; [|discriminate].
      destruct stop; cbn; split; auto; exists []; auto.
    + destruct D as [-> | [D _]]; [|discriminate].
      destruct queue as [|p rest]; cbn; split; auto; exists []; auto.
    + destruct D as [-> | [D _]]; [|discriminate].
      destruct stop; cbn; split; auto.
      * exists [t]. auto.
      * exists []. auto.
    + destruct D as [-> | [D _]]; [|discriminate].
      split; auto. exists []. split; [|auto].
      cbn in E |- *. rewrite E, <- !app_assoc.
      destruct (returns t); reflexivity.
    + destruct D as [-> | [D _]]; [|discriminate].
      split; auto. exists []. auto.
    + destruct D as [-> | [D _]]; [|discriminate].
      destruct stop; cbn; split; auto; exists []; auto.
    + split; auto. exists dropped. split; [exact E|].
      destruct D as [D | [D _]]; [auto|discriminate].
    + split; auto. exists dropped. split; [exact E|].
      destruct D as [D | [D _]]; [auto|discriminate].
    + split; auto. exists dropped. auto.
  - split; auto. exists dropped. split; [|exact D].
    rewrite E, <- !app_assoc. reflexivity.
  - rewrite app_nil_r. split; auto. exists dropped. auto.
Qed.

Lemma history_run (trace : list (action Task)) :
  history (enqueued trace) (run returns trace started).
Proof.
  induction trace as [|a trace IH] using rev_ind.
  - split; [reflexivity|]. exists []. auto.
  - rewrite run_snoc, enqueued_snoc. now apply history_step.
Qed.

(** X18.  The worker takes the entries in the order they were
    enqueued, skips none and takes none twice: at every point of
    every run of an asynchronous client, the entries passed to
    [performRequest] so far are, in this order, those whose request
    was executed, the one the worker holds, at most one entry that
    was popped and then dropped by the stop check that made the
    worker leave, and those still in the queue. *)
Theorem requests_in_enqueue_order (trace : list (action Task)) :
  let s := run returns trace started in
  exists dropped,
    enqueued trace = rev (requested s) ++ in_hand s ++ dropped ++ _queue s
    /\ (dropped = [] \/ (worker s = Exited /\ length dropped = 1)).
Proof. exact (proj2 (history_run trace)). Qed.

Lemma answered_step (a : action Task) (s : state Task) :
  answered returns s -> answered returns (step returns a s).
Proof.
  destruct s as [async stop queue w req cal]. unfold answered. cbn.
  destruct a as [| t |]; cbn.
  - destruct w; cbn; intros H;
      try (destruct (negb stop && _); cbn; exact H);
      try (destruct stop; cbn; exact H);
      try (destruct queue; cbn; exact H);
      try exact H.
    + destruct (returns t) eqn:R; cbn; [congruence|].
      exists t. split; [congruence|exact R].
    + congruence.
  - destruct async; cbn; auto.
  - destruct async; cbn; auto.
Qed.

Lemma answered_run (trace : list (action Task)) :
  answered returns (run returns trace started).
Proof.
  induction trace as [|a trace IH] using rev_ind; [reflexivity|].
  rewrite run_snoc. now apply answered_step.
Qed.

(** X19.  Callbacks follow requests one for one and in the same
    order: at every point of every run, the entries whose callback
    was invoked are the entries whose request was executed, but for
    the latest one while the worker is between its request and its
    callback (or inside a request that does not come back).  No
    callback is invoked for an entry whose request was not
    executed. *)
Theorem callbacks_follow_requests (trace : list (action Task)) :
  let s := run returns trace started in
  called s = requested s
  \/ exists t, requested s = t :: called s
               /\ (worker s = AtCallback t
                   \/ (worker s = Hung /\ returns t = false)).
Proof.
  intros s. pose proof (answered_run trace) as H. fold s in H.
  unfold answered in H.
  destruct (worker s) eqn:W; auto.
  - right. exists t. auto.
  - destruct H as (t & H & R). right. exists t. auto.
Qed.

(** X20.  On a synchronous client (made with [async] false)
    [performRequest] returns [false] and enqueues nothing, and no
    sequence of calls, shutdowns or steps ever changes the state:
    nothing is executed and no callback is invoked. *)
Theorem synchronous_client_inert (trace : list (action Task)) (t : Task) :
  performRequest t (created false) = (false, created false)
  /\ run returns trace (created false) = created false.
Proof.
  split; [reflexivity|].
  induction trace as [|a trace IH]; [reflexivity|].
  cbn [run]. destruct a; exact IH.
Qed.

(** X26.  The worker never calls [front()] on an empty queue: in every
    run of an asynchronous client, when the worker is about to pop,
    the queue has an entry. *)
Theorem pop_never_on_empty_queue (trace : list (action Task)) :
  let s := run returns trace started in
  worker s <> Crashed /\ (worker s = AtPop -> _queue s <> []).
Proof.
  intros s.
  destruct (AsyncFacts.wf_run returns trace started
                              (AsyncFacts.wf_started)) as (P & _ & C).
  split; [exact C|exact P].
Qed.

Lemma exited_step (a : action Task) (s : state Task) :
  worker s = Exited ->
  worker (step returns a s) = Exited
  /\ requested (step returns a s) = requested s
  /\ called (step returns a s) = called s.
Proof.
  destruct s as [async stop queue w req cal]. cbn. intros ->.
  destruct a; cbn; auto; destruct async; cbn; auto.
Qed.

(** X27.  Once the worker has left [run], [performRequest] still
    returns [true] and puts the entry in the queue, but nothing is
    executed any more: whatever is enqueued afterwards, no request
    runs and no callback is invoked. *)
Theorem enqueue_after_exit (trace : list (action Task)) (s : state Task)
        (t : Task) :
  _async s = true ->
  worker s = Exited ->
  performRequest t s
  = (true, snd (performRequest t s))
  /\ _queue (snd (performRequest t s)) = _queue s ++ [t]
  /\ requested (run returns trace s) = requested s
  /\ called (run returns trace s) = called s.
Proof.
  intros Ha Hw. unfold performRequest. rewrite Ha. cbn.
  split; [reflexivity|]. split; [reflexivity|].
  revert s Ha Hw. induction trace as [|a trace IH]; intros s Ha Hw; [auto|].
  cbn [run].
  destruct (exited_step a s Hw) as (W & R & C).
  assert (_async (step returns a s) = true) as A.
  { destruct s as [async stop queue w req cal]. cbn in *. subst.
    destruct a; reflexivity. }
  destruct (IH _ A W) as [R' C']. split; congruence.
Qed.

Lemma run_app (t1 t2 : list (action Task)) :
  forall s, run returns (t1 ++ t2) s = run returns t2 (run returns t1 s).
Proof.
  induction t1 as [|a t1 IH]; intros s; [reflexivity|]. cbn. apply IH.
Qed.

Lemma enqueued_app (t1 t2 : list (action Task)) :
  enqueued (t1 ++ t2) = enqueued t1 ++ enqueued t2.
Proof.
  induction t1 as [|a t1 IH]; [reflexivity|].
  destruct a; cbn; now rewrite IH.
Qed.

Lemma enqueued_works (n : nat) : enqueued (repeat (@Work Task) n) = [].
Proof. induction n as [|n IH]; [reflexivity|exact IH]. Qed.

(** One step of the worker takes one off what remains. *)
Lemma live_work (s : state Task) :
  live returns s ->
  live returns (work returns s)
  /\ remaining (work returns s) = pred (remaining s).
Proof.
  destruct s as [async stop queue w req cal].
  unfold live, remaining, in_hand. cbn.
  intros (-> & -> & W & R).
  destruct w; cbn in *; try contradiction.
  - destruct queue as [|p rest]; cbn; [auto|].
    repeat split; auto; [discriminate|lia].
  - repeat split; auto. destruct queue; cbn in *; [contradiction|lia].
  - destruct queue as [|p rest]; [contradiction|]. cbn.
    repeat split; auto. lia.
  - repeat split; auto. lia.
  - rewrite (R t) by now left. cbn.
    repeat split; auto. lia.
  - repeat split; auto. lia.
  - repeat split; auto. lia.
Qed.

(** A call of [performRequest] adds one turn of the loop. *)
Lemma live_enqueue (t : Task) (s : state Task) :
  live returns s ->
  returns t = true ->
  live returns (snd (performRequest t s))
  /\ remaining (snd (performRequest t s)) = remaining s + 7.
Proof.
  destruct s as [async stop queue w req cal].
  unfold live, performRequest. cbn. intros (-> & -> & W & R) Ht. cbn.
  split; [split; [reflexivity|split; [reflexivity|split]]|].
  - destruct w; cbn in *; try contradiction; auto;
      destruct queue; discriminate.
  - unfold in_hand in *. cbn in *. intros t' I.
    rewrite app_assoc in I.
    apply in_app_or in I as [I | [<- | []]]; [now apply R|exact Ht].
  - unfold remaining. cbn. rewrite length_app. cbn [length].
    destruct w; cbn in *; try contradiction; try lia;
      destruct queue; cbn in *; try contradiction; lia.
Qed.

Lemma live_run (trace : list (action Task)) :
  forall s : state Task,
    live returns s ->
    ~ In Shutdown trace ->
    (forall t, In t (enqueued trace) -> returns t = true) ->
    live returns (run returns trace s)
    /\ remaining (run returns trace s)
       <= remaining s + 7 * length (enqueued trace).
Proof.
  induction trace as [|a trace IH]; intros s L N R.
  - cbn. split; [exact L|lia].
  - cbn [run]. destruct a as [| t |].
    + destruct (live_work s L) as [L' M].
      destruct (IH _ L') as [L'' M'];
        [intros I; apply N; now right|exact R|].
      split; [exact L''|]. cbn [step enqueued] in *. lia.
    + destruct (live_enqueue t s L) as [L' M]; [apply R; now left|].
      destruct (IH _ L') as [L'' M'];
        [intros I; apply N; now right|intros t' I; apply R; now right|].
      split; [exact L''|]. cbn [step enqueued length] in *. lia.
    + exfalso. apply N. now left.
Qed.

Lemma live_works (n : nat) :
  forall s : state Task,
    live returns s ->
    live returns (run returns (repeat Work n) s)
    /\ remaining (run returns (repeat Work n) s) = remaining s - n.
Proof.
  induction n as [|n IH]; intros s L.
  - cbn. split; [exact L|lia].
  - cbn [repeat run step]. destruct (live_work s L) as [L' M].
    destruct (IH _ L') as [L'' M']. split; [exact L''|lia].
Qed.

(** With nothing left to do, the worker waits on an empty queue. *)
Lemma live_at_rest (s : state Task) :
  live returns s -> remaining s = 0 ->
  worker s = AtWait /\ _queue s = [] /\ _stop s = false.
Proof.
  destruct s as [async stop queue w req cal].
  unfold live, remaining. cbn. intros (_ & -> & W & _) M.
  destruct w; try contradiction; try lia;
    destruct queue; cbn in *; try contradiction; try lia; auto.
Qed.

Lemma live_started : live returns (@started Task).
Proof. repeat split. intros t []. Qed.

(** X29.  Without a shutdown, and with requests that come back, the
    worker gets through the whole queue however the calls of
    [performRequest] interleave with its steps: after any run of a
    new asynchronous client in which the destructor is not called,
    seven further steps of the worker for each entry enqueued (or any
    number above) leave every entry executed and called back, once
    each and in the order of the enqueueing, the queue empty and the
    worker waiting again. *)
Theorem queue_is_drained (trace : list (action Task)) (n : nat) :
  ~ In Shutdown trace ->
  (forall t, In t (enqueued trace) -> returns t = true) ->
  7 * length (enqueued trace) <= n ->
  let s := run returns (trace ++ repeat Work n) started in
  requested s = rev (enqueued trace) /\ called s = rev (enqueued trace)
  /\ _queue s = [] /\ worker s = AtWait /\ _stop s = false.
Proof.
  intros N R Hn s.
  assert (worker s = AtWait /\ _queue s = [] /\ _stop s = false)
    as (W & Q & St).
  { unfold s. rewrite run_app.
    destruct (live_run trace started live_started N R) as [L M].
    destruct (live_works n _ L) as [L' M'].
    apply live_at_rest; [exact L'|].
    change (remaining (@started Task)) with 0 in M. lia. }
  pose proof (history_run (trace ++ repeat Work n)) as (_ & dropped & E & D).
  pose proof (answered_run (trace ++ repeat Work n)) as A.
  fold s in E, D, A. unfold answered in A. unfold in_hand in E.
  rewrite W in A, E. rewrite Q in E.
  destruct D as [-> | [D _]]; [|rewrite W in D; discriminate].
  rewrite enqueued_app, enqueued_works, !app_nil_r in E. cbn in E.
  rewrite ?app_nil_r in E.
  assert (requested s = rev (enqueued trace)) as Rq
      by (rewrite E; now rewrite rev_involutive).
  repeat split; auto. now rewrite A.
Qed.

End Dispatcher.

(** A run in which the calls of [performRequest] come between the
    steps of the worker. *)
Lemma queue_is_drained_witness :
  let returns := fun _ : nat => true in
  let trace := [Enqueue 1; Work; Work; Work; Enqueue 2; Work; Work; Work;
                Work; Work; Enqueue 3; Work] in
  let s := run returns (trace ++ repeat Work 21) started in
  ~ In Shutdown trace
  /\ requested s = [3; 2; 1] /\ called s = [3; 2; 1] /\ _queue s = [].
Proof.
  intros returns trace s.
  assert (~ In Shutdown trace) as N.
  { cbn. intros H.
    repeat (destruct H as [H | H]; [discriminate|]). exact H. }
  split; [exact N|].
  destruct (queue_is_drained returns trace 21 N (fun _ _ => eq_refl))
    as (R & C & Q & _).
  - cbn. lia.
  - auto.
Defined.

(** A run in which the worker has left before an entry is enqueued. *)
Lemma enqueue_after_exit_witness :
  let returns := fun _ : nat => true in
  let s := run returns [Shutdown; Work; Work] started in
  worker s = Exited
  /\ fst (performRequest 7 s) = true
  /\ _queue (snd (performRequest 7 s)) = [7]
  /\ requested (run returns [Enqueue 7; Work; Work; Work] s) = [].
Proof.
  intros returns s.
  destruct (enqueue_after_exit returns [Enqueue 7; Work; Work; Work] s 7
                               eq_refl eq_refl) as (P & Q & R & _).
  split; [reflexivity|]. split; [now rewrite P|]. split; [exact Q|exact R].
Defined.

End AsyncMore.

(** ** The command-line client *)

Module ToolFacts.

Import Http Query Tool.

Local Open Scope nat_scope.

(** *** [rfind] and [substr] *)

Lemma rfind_none (ch : ascii) (s : string) :
  rfind ch s = None <-> occurs ch s = false.
Proof.
  induction s as [|c s IH]; cbn; [tauto|].
  destruct (rfind ch s) as [i|].
  - split; [discriminate|]. intros H. apply orb_false_elim in H as [_ H].
    apply IH in H. discriminate.
  - rewrite (proj1 IH eq_refl), orb_false_r.
    destruct (Ascii.eqb c ch); split; (discriminate || reflexivity).
Qed.

(** Where the last [ch] is: what is before it, and what is after. *)
Lemma rfind_some (ch : ascii) (s : string) :
  forall i,
    rfind ch s = Some i ->
    exists after,
      s = substr_to i s ++ String ch after
      /\ occurs ch after = false
      /\ substr_from (i + 1) s = Some after
      /\ String.length s = i + 1 + String.length after.
Proof.
  induction s as [|c s IH]; intros i H; [discriminate|].
  cbn in H. destruct (rfind ch s) as [j|] eqn:R.
  - inversion H; subst i.
    destruct (IH j eq_refl) as (after & E & O & F & L).
    exists after. cbn. rewrite <- E. repeat split; auto; lia.
  - destruct (Ascii.eqb_spec c ch) as [->|]; [|discriminate].
    inversion H; subst i. exists s. cbn.
    repeat split; auto. now apply rfind_none.
Qed.

(** X21.  [extractFilename] never throws and returns the part of the
    path after its last slash: the result has no slash, the path is
    the result itself when it has no slash, and otherwise a
    directory part, a slash and the result.  A path that ends with a
    slash gives the empty name. *)
Theorem extractFilename_spec (path : string) :
  exists name,
    extractFilename path = Some name
    /\ occurs "/" name = false
    /\ (occurs "/" path = false -> name = path)
    /\ (occurs "/" path = true -> exists dir, path = dir ++ "/" ++ name)
    /\ extractFilename (path ++ "/") = Some EmptyString.
Proof.
  assert (forall p, exists name,
             extractFilename p = Some name
             /\ occurs "/" name = false
             /\ (occurs "/" p = false -> name = p)
             /\ (occurs "/" p = true -> exists dir, p = dir ++ "/" ++ name))
    as Main.
  { intros p. unfold extractFilename.
    destruct (rfind "/" p) as [idx|] eqn:R.
    - destruct (rfind_some _ _ _ R) as (after & E & O & F & _).
      exists after. repeat split; auto.
      + intros N. apply rfind_none in N. congruence.
      + intros _. exists (substr_to idx p). exact E.
    - exists p. apply rfind_none in R. repeat split; auto.
      intros Y. congruence. }
  destruct (Main path) as (name & E & O & A & B).
  exists name. repeat split; auto.
  destruct (Main (path ++ "/")) as (n2 & E2 & O2 & _ & B2).
  rewrite E2. f_equal.
  destruct B2 as [dir D].
  { rewrite UrlMore.occurs_app. cbn. apply orb_true_r. }
  assert (String.length n2 = 0) as Z; [|destruct n2; [reflexivity|discriminate]].
  (* the last byte of both sides is the slash *)
  clear - D O2.
  revert dir D. induction path as [|c path IH]; intros dir D.
  - destruct dir as [|d dir]; cbn in D.
    + inversion D. reflexivity.
    + inversion D as [[Hd D']]. destruct dir; discriminate.
  - destruct dir as [|d dir]; cbn in D.
    + inversion D as [[Hc D']]. rewrite <- D' in O2.
      rewrite UrlMore.occurs_app in O2. cbn in O2.
      rewrite orb_true_r in O2. discriminate.
    + inversion D as [[Hc D']]. exact (IH dir D').
Qed.

(** *** The parsing loops *)

Lemma substr_from_next (i : nat) (s : string) :
  forall after,
    substr_from i s = Some after ->
    substr_from (S i) s
    = match after with
      | EmptyString => None
      | String _ rest => Some rest
      end.
Proof.
  revert s. induction i as [|i IH]; intros s after H.
  - cbn in H. inversion H; subst. destruct after; reflexivity.
  - destruct s as [|c s]; [discriminate|]. cbn in H.
    exact (IH s after H).
Qed.

(** X22.  One line given to [parseHeaders] is split at its LAST
    colon: the key is all that is before it, and the value starts two
    characters after it, so the character that follows the colon is
    dropped whatever it is ([Key:value] gives the value [alue]).  A
    line without a colon is skipped, and a line that ends with its
    last colon makes [substr] throw [std::out_of_range]. *)
Theorem header_line_split (token : string) :
  match header_of_line token with
  | Skipped => occurs ":" token = false
  | Entry key val =>
      exists ch, token = key ++ ":" ++ String ch val
                 /\ occurs ":" (String ch val) = false
  | OutOfRange => exists key, token = key ++ ":"
  end.
Proof.
  unfold header_of_line.
  destruct (rfind ":" token) as [pos|] eqn:R; [|now apply rfind_none].
  destruct (rfind_some _ _ _ R) as (after & E & O & F & _).
  replace (pos + 2) with (S (pos + 1)) by lia.
  rewrite (substr_from_next _ _ _ F).
  destruct after as [|ch val].
  - exists (substr_to pos token). exact E.
  - exists ch. split; [exact E|exact O].
Qed.

(** X23.  One line given to [parsePostParameters] is split at its
    LAST equals sign ([a=b=c] gives the key [a=b] and the value [c]);
    the value has no equals sign; a line without one is skipped; the
    function never throws. *)
Theorem parameter_line_split (token : string) :
  match parameter_of_line token with
  | Skipped => occurs "=" token = false
  | Entry key val => token = key ++ "=" ++ val /\ occurs "=" val = false
  | OutOfRange => False
  end.
Proof.
  unfold parameter_of_line.
  destruct (rfind "=" token) as [pos|] eqn:R; [|now apply rfind_none].
  destruct (rfind_some _ _ _ R) as (after & E & O & F & _).
  rewrite F. split; [exact E|exact O].
Qed.

Lemma parameter_line_total (token : string) :
  parameter_of_line token <> OutOfRange.
Proof.
  unfold parameter_of_line.
  destruct (rfind "=" token) as [pos|] eqn:R; [|discriminate].
  destruct (rfind_some _ _ _ R) as (after & _ & _ & F & _).
  rewrite F. discriminate.
Qed.

Lemma header_line_thrown (token : string) :
  header_of_line token = OutOfRange -> exists key, token = key ++ ":".
Proof.
  unfold header_of_line.
  destruct (rfind ":" token) as [pos|] eqn:R; [|discriminate].
  destruct (rfind_some _ _ _ R) as (after & E & _ & F & _).
  replace (pos + 2) with (S (pos + 1)) by lia.
  rewrite (substr_from_next _ _ _ F).
  destruct after; [|discriminate].
  intros _. exists (substr_to pos token). exact E.
Qed.

Lemma parse_loop_throws line same tokens :
  forall m cerr,
    fst (parse_loop line same tokens m cerr) = None
    <-> exists token, In token tokens /\ line token = OutOfRange.
Proof.
  induction tokens as [|token rest IH]; intros m cerr; cbn.
  - split; [discriminate|]. intros (t & [] & _).
  - destruct (line token) as [|key val|] eqn:L.
    + rewrite IH. split.
      * intros (t & I & O). exists t. auto.
      * intros (t & [-> | I] & O); [congruence|]. exists t. auto.
    + rewrite IH. split.
      * intros (t & I & O). exists t. auto.
      * intros (t & [-> | I] & O); [congruence|]. exists t. auto.
    + cbn. split; [|reflexivity]. intros _. exists token. auto.
Qed.

Lemma rfind_at_end (ch : ascii) (key : string) :
  rfind ch (key ++ String ch EmptyString) = Some (String.length key).
Proof.
  induction key as [|c key IH]; cbn.
  - now rewrite Ascii.eqb_refl.
  - now rewrite IH.
Qed.

Lemma substr_from_beyond (pos : nat) (s : string) :
  String.length s < pos -> substr_from pos s = None.
Proof.
  revert s. induction pos as [|pos IH]; intros s H; [lia|].
  destruct s as [|c s]; [reflexivity|]. cbn in *. apply IH. lia.
Qed.

Lemma header_line_throws (token : string) :
  header_of_line token = OutOfRange <-> exists key, token = key ++ ":".
Proof.
  split.
  - apply header_line_thrown.
  - intros [key ->]. unfold header_of_line.
    change (key ++ ":") with (key ++ String ":" EmptyString).
    rewrite rfind_at_end, substr_from_beyond; [reflexivity|].
    rewrite UrlMore.length_app. cbn. lia.
Qed.

Section Headers.

Context {Sock : Type} {platform : Platform Sock}.

(** X24.  [parseHeaders] throws [std::out_of_range] exactly when
    some line of its text ends with a colon (a header given without a
    value, as in [X-Empty:]); otherwise it returns a map. *)
Theorem parseHeaders_throws (data : string) :
  fst (parseHeaders data) = None
  <-> exists key, In (key ++ ":") (getlines data).
Proof.
  unfold parseHeaders. rewrite parse_loop_throws. split.
  - intros (token & I & O). apply header_line_throws in O as [key ->].
    exists key. exact I.
  - intros (key & I). exists (key ++ ":"). split; [exact I|].
    apply header_line_throws. now exists key.
Qed.

End Headers.

Lemma lookup_assign (key val k : string) (m : list (string * string)) :
  lookup k (assign String.eqb key val m)
  = if String.eqb key k then Some val else lookup k m.
Proof.
  induction m as [|[k' v'] m IH]; cbn.
  - reflexivity.
  - destruct (String.eqb_spec k' key) as [->|N]; cbn.
    + destruct (String.eqb key k); reflexivity.
    + rewrite IH. destruct (String.eqb_spec k' k) as [->|]; [|reflexivity].
      destruct (String.eqb_spec key k); [congruence|reflexivity].
Qed.

Lemma parameters_loop (tokens : list string) :
  forall m cerr,
    exists result,
      fst (parse_loop parameter_of_line String.eqb tokens m cerr) = Some result
      /\ forall k, lookup k result
                   = last_value parameter_of_line k tokens (lookup k m).
Proof.
  induction tokens as [|token rest IH]; intros m cerr; cbn.
  - exists m. auto.
  - pose proof (parameter_line_total token) as S.
    destruct (parameter_of_line token) as [|key val|];
      [apply IH| |contradiction].
    destruct (IH (assign String.eqb key val m)
                 (cerr ++ key ++ ": " ++ val ++ endl)%string)
      as (result & E & L).
    exists result. split; [exact E|].
    intros k. rewrite L, lookup_assign. reflexivity.
Qed.

(** X25.  [parsePostParameters] always returns a map, and looking a
    key up in it gives the value of the last line of the text that
    has this key: a later line overwrites an earlier one, and a key
    that no line has is absent. *)
Theorem parsePostParameters_last_wins (data : string) :
  exists m,
    fst (parsePostParameters data) = Some m
    /\ forall k, lookup k m
                 = last_value parameter_of_line k (getlines data) None.
Proof.
  unfold parsePostParameters.
  destruct (parameters_loop (getlines data) [] EmptyString) as (m & E & L).
  exists m. split; [exact E|]. intros k. now rewrite L.
Qed.

Example header_values_lose_a_character :
  header_of_line "Key:value" = Entry "Key" "alue"
  /\ header_of_line "Host: a:80" = Entry "Host: a" "0"
  /\ header_of_line "Accept: text/html" = Entry "Accept" "text/html".
Proof. repeat split. Qed.

Example parameters_of_a_text :
  fst (parsePostParameters
         ("a=1" ++ String LF ("junk" ++ String LF ("b=x=y" ++ String LF "a=2"))))
  = Some [("a", "2"); ("b=x", "y")].
Proof. reflexivity. Qed.

End ToolFacts.

(** ** More runs on the scripted transport *)

Module MoreRuns.

Import Http Wire Cases HttpFacts Report RequestFacts Runs.

(** Runs a call and keeps the response with its equation. *)
Ltac returned Hrun r c' :=
  match goal with
  | |- context [request ?fuel ?u ?v ?b ?a ?n ?c] =>
      let o := fresh "o" in
      destruct (request fuel u v b a n c) as [o c'] eqn:Hrun;
      let H := fresh in
      assert (exists r, o = Returned r) as [r H]
          by (vm_compute in Hrun; inversion Hrun; eexists; reflexivity);
      subst o
  end.

Ltac known Hrun :=
  let H := fresh in
  pose proof Hrun as H; vm_compute in H; inversion H; subst; clear H.

Lemma gzipInflate_first_call_witness :
  gzipInflate (platform := platform_of []) 1 "zhello" EmptyString
  = Some (true, "hello")
  /\ gzipInflate (platform := platform_of []) 1 "hello" EmptyString
     = Some (false, EmptyString).
Proof.
  split.
  - apply (proj2 (gzipInflate_first_call (platform := platform_of [])
                    0 "zhello" EmptyString EmptyString EmptyString 1 "hello"
                    eq_refl eq_refl));
      [reflexivity | vm_compute; discriminate].
  - apply (proj1 (gzipInflate_first_call (platform := platform_of [])
                    0 "hello" EmptyString EmptyString "hello" Z_DATA_ERROR
                    EmptyString eq_refl eq_refl)).
    reflexivity.
Defined.

Lemma request_lock_discipline_witness :
  (exists r c',
      request (platform := platform_of plain) 2 "http://a/" "GET" EmptyString
              (args_with [] true 10) 0 idle = (Returned r, c')
      /\ _mutex c' = false)
  /\ (exists c',
         request (platform := platform_of chain1) 2 "http://a/" "GET"
                 EmptyString (args_with [] true 10) 0 idle = (Deadlock, c')
         /\ _mutex c' = true).
Proof.
  split.
  - pose proof (request_lock_discipline (platform := platform_of plain)
                  1 "http://a/" "GET" EmptyString (args_with [] true 10) 0 idle
                  eq_refl) as L.
    returned Hrun r c'. exists r, c'. split; [reflexivity|exact L].
  - pose proof (request_lock_discipline (platform := platform_of chain1)
                  1 "http://a/" "GET" EmptyString (args_with [] true 10) 0 idle
                  eq_refl) as L.
    destruct (request (platform := platform_of chain1) 2 "http://a/" "GET"
                      EmptyString (args_with [] true 10) 0 idle)
      as [o c'] eqn:Hrun.
    assert (o = Deadlock) as -> by (vm_compute in Hrun; now inversion Hrun).
    exists c'. split; [reflexivity|exact L].
Defined.

Lemma request_quiet_witness :
  quiet (args_with [] true 10) = true
  /\ logged (snd (request (platform := platform_of two_chunks) 5 "http://a/"
                          "GET" EmptyString (args_with [] true 10) 0 idle))
     = []
  /\ List.length
       (logged (snd (request (platform := platform_of two_chunks) 5
                             "http://a/" "GET" EmptyString
                             (loud (args_with [] true 10)) 0 idle)))
     = 5%nat.
Proof.
  split; [reflexivity|]. split.
  - apply (request_quiet (platform := platform_of two_chunks)). reflexivity.
  - vm_compute. reflexivity.
Defined.

Lemma status_code_reported_witness :
  (exists r c',
      request (platform := platform_of plain) 2 "ftp://a/" "GET" EmptyString
              (args_with [] true 10) 0 idle = (Returned r, c')
      /\ errorCode r = UrlMalformed
      /\ statusCode r = 0 /\ headers r = [])
  /\ (exists r c',
         request (platform := platform_of bad_chunk) 2 "http://a/" "GET"
                 EmptyString (args_with [] true 10) 0 idle = (Returned r, c')
         /\ errorCode r = Ok
         /\ statusCode r = 200).
Proof.
  split.
  - returned Hrun r c'.
    pose proof (status_code_reported (platform := platform_of plain)
                  1 _ _ _ _ _ idle c' r eq_refl Hrun) as T.
    assert (errorCode r = UrlMalformed) as E by (known Hrun; reflexivity).
    rewrite E in T. cbn in T. destruct T as (S0 & H0 & _).
    exists r, c'. auto.
  - returned Hrun r c'.
    pose proof (status_code_reported (platform := platform_of bad_chunk)
                  1 _ _ _ _ _ idle c' r eq_refl Hrun) as T.
    assert (errorCode r = Ok) as E by (known Hrun; reflexivity).
    rewrite E in T. cbn [before_status] in T.
    destruct T as [T | (x & c1 & Hx & S1)]; [discriminate T|].
    exists r, c'. repeat split; auto.
    rewrite S1. concrete Hx. reflexivity.
Defined.

Lemma downloadSize_reported_witness :
  (exists r c',
      request (platform := platform_of cut_in_chunk) 5 "http://a/" "GET"
              EmptyString (args_with [] true 10) 0 idle = (Returned r, c')
      /\ errorCode r = ChunkReadError /\ payload r = "hello"
      /\ downloadSize r = 0)
  /\ (exists r c',
         request (platform := platform_of broken_zip) 5 "http://a/" "GET"
                 EmptyString (args_with [] true 10) 0 idle = (Returned r, c')
         /\ errorCode r = Gzip /\ payload r = "hello"
         /\ downloadSize r = size (payload r))
  /\ (exists r c',
         request (platform := platform_of zipped) 5 "http://a/" "GET"
                 EmptyString (args_with [] true 10) 0 idle = (Returned r, c')
         /\ errorCode r = Ok /\ payload r = "hello" /\ downloadSize r = 6).
Proof.
  split; [|split].
  - returned Hrun r c'.
    destruct (downloadSize_reported (platform := platform_of cut_in_chunk)
                4 _ _ _ _ _ idle c' r eq_refl Hrun) as (D & _ & _).
    assert (errorCode r = ChunkReadError /\ payload r = "hello") as [E P]
        by (known Hrun; split; reflexivity).
    exists r, c'. repeat split; auto.
    apply D; rewrite E; discriminate.
  - returned Hrun r c'.
    destruct (downloadSize_reported (platform := platform_of broken_zip)
                4 _ _ _ _ _ idle c' r eq_refl Hrun) as (_ & D & _).
    assert (errorCode r = Gzip /\ payload r = "hello") as [E P]
        by (known Hrun; split; reflexivity).
    exists r, c'. repeat split; auto.
  - returned Hrun r c'. exists r, c'. known Hrun. repeat split.
Defined.

Lemma uploadSize_reported_witness :
  (exists r c',
      request (platform := platform_of plain) 2 "http://b/" "GET" EmptyString
              (args_with [] true 10) 0 idle = (Returned r, c')
      /\ errorCode r = CannotConnect /\ uploadSize r = 0)
  /\ (exists r c',
         request (platform := platform_of plain) 2 "http://a/x" "POST" "k=v"
                 (args_with [] true 10) 0 idle = (Returned r, c')
         /\ errorCode r = Ok
         /\ uploadSize r = size (bytes_sent c')
         /\ uploadSize r = 138).
Proof.
  split.
  - returned Hrun r c'.
    pose proof (uploadSize_reported (platform := platform_of plain)
                  1 _ _ _ _ _ idle c' r eq_refl Hrun) as T.
    assert (errorCode r = CannotConnect) as E by (known Hrun; reflexivity).
    rewrite E in T. exists r, c'. auto.
  - returned Hrun r c'.
    pose proof (uploadSize_reported (platform := platform_of plain)
                  1 _ _ _ _ _ idle c' r eq_refl Hrun) as T.
    assert (errorCode r = Ok) as E by (known Hrun; reflexivity).
    rewrite E in T. cbn [before_write] in T.
    destruct T as (u & Hu & U).
    assert (u = {| protocol := "http"; host := "a"; path := "/x";
                   query := EmptyString; port := 80 |}) as ->
        by (vm_compute in Hu; now inversion Hu).
    exists r, c'. repeat split; auto.
    rewrite U. known Hrun. reflexivity.
Defined.

Lemma redirect_refused_witness :
  (exists x c1,
      exchange (platform := platform_of no_location) "http://a/" "GET"
               EmptyString (args_with [] true 10) (set_mutex true idle)
      = (inr x, c1)
      /\ x_code x = 302
      /\ request (platform := platform_of no_location) 1 "http://a/" "GET"
                 EmptyString (args_with [] true 10) 0 idle
         = (Returned (failure x MissingLocation EmptyString
                              "Missing location header for redirect"),
            set_mutex false c1))
  /\ (exists x c1,
         exchange (platform := platform_of chain1) "http://a/" "HEAD"
                  EmptyString (args_with [] true 0) (set_mutex true idle)
         = (inr x, c1)
         /\ request (platform := platform_of chain1) 1 "http://a/" "HEAD"
                    EmptyString (args_with [] true 0) 0 idle
            = (Returned (failure x TooManyRedirects EmptyString
                                 "Too many redirects: 0"),
               set_mutex false c1)).
Proof.
  split.
  - exchanged no_location "http://a/" "GET" (args_with [] true 10) x c1 Hx.
    exists x, c1. split; [reflexivity|].
    split; [concrete Hx; reflexivity|].
    apply (proj1 (redirect_refused (platform := platform_of no_location)
                    0 _ _ _ _ 0 idle c1 x eq_refl Hx
                    ltac:(concrete Hx; reflexivity))).
    concrete Hx. reflexivity.
  - exchanged chain1 "http://a/" "HEAD" (args_with [] true 0) x c1 Hx.
    exists x, c1. split; [reflexivity|].
    apply (proj1 (proj2 (redirect_refused (platform := platform_of chain1)
                           0 _ _ _ _ 0 idle c1 x eq_refl Hx
                           ltac:(concrete Hx; reflexivity)))
                 "http://b/").
    + concrete Hx. reflexivity.
    + vm_compute. discriminate.
Defined.

Lemma deadlock_exactly_witness :
  fst (request (platform := platform_of chain1) 2 "http://a/" "GET"
               EmptyString (args_with [] true 10) 0 idle) = Deadlock
  /\ fst (request (platform := platform_of chain1) 2 "http://a/" "GET"
                  EmptyString (args_with [] false 10) 0 idle) <> Deadlock.
Proof.
  split.
  - apply (proj2 (deadlock_exactly (platform := platform_of chain1)
                    0 "http://a/" "GET" EmptyString (args_with [] true 10) 0
                    idle)).
    right.
    exchanged chain1 "http://a/" "GET" (args_with [] true 10) x c1 Hx.
    exists x, c1, "http://b/". split; [reflexivity|].
    concrete Hx. repeat split.
  - intros H.
    apply (proj1 (deadlock_exactly (platform := platform_of chain1)
                    0 "http://a/" "GET" EmptyString (args_with [] false 10) 0
                    idle)) in H.
    destruct H as [H | (x & c1 & l & Hx & R & _)]; [discriminate|].
    concrete Hx. discriminate R.
Defined.

Lemma negative_content_length_witness :
  exists x c1,
    exchange (platform := platform_of negative_length) "http://a/" "GET"
             EmptyString (args_with [] true 10) (set_mutex true idle)
    = (inr x, c1)
    /\ find (platform := platform_of negative_length) "Content-Length"
            (x_headers x) = Some "-1"
    /\ fst (request (platform := platform_of negative_length) 1 "http://a/"
                    "GET" EmptyString (args_with [] true 10) 0 idle)
       = LengthError.
Proof.
  exchanged negative_length "http://a/" "GET" (args_with [] true 10) x c1 Hx.
  exists x, c1. split; [reflexivity|].
  split; [concrete Hx; reflexivity|].
  assert (isRedirect (x_code x) (args_with [] true 10) = false) as Hredir
      by (concrete Hx; reflexivity).
  assert (find (platform := platform_of negative_length) "Content-Length"
               (x_headers x) = Some "-1") as Hlen
      by (concrete Hx; reflexivity).
  assert (string_max_size (Platform := platform_of negative_length) < 2 ^ 63)
    as Hmax by reflexivity.
  destruct (negative_content_length (platform := platform_of negative_length)
              0 _ _ _ _ 0 idle c1 x "-1" eq_refl Hx Hredir eq_refl Hlen Hmax)
    as [_ T].
  rewrite T; [reflexivity|]. vm_compute. reflexivity.
Defined.

Lemma unparsable_content_length_witness :
  exists x c1 r c',
    exchange (platform := platform_of wordy_length) "http://a/" "GET"
             EmptyString (args_with [] true 10) (set_mutex true idle)
    = (inr x, c1)
    /\ find (platform := platform_of wordy_length) "Content-Length"
            (x_headers x) = Some "abc"
    /\ request (platform := platform_of wordy_length) 2 "http://a/" "GET"
               EmptyString (args_with [] true 10) 0 idle
       = (Returned r, c')
    /\ errorCode r = Ok /\ payload r = EmptyString
    /\ bytes_unread c' = "hello".
Proof.
  exchanged wordy_length "http://a/" "GET" (args_with [] true 10) x c1 Hx.
  assert (isRedirect (x_code x) (args_with [] true 10) = false) as Hredir
      by (concrete Hx; reflexivity).
  assert (find (platform := platform_of wordy_length) "Content-Length"
               (x_headers x) = Some "abc") as Hlen
      by (concrete Hx; reflexivity).
  assert (0 <= string_max_size (Platform := platform_of wordy_length))
    as Hmax by (vm_compute; discriminate).
  destruct (unparsable_content_length (platform := platform_of wordy_length)
              1 _ _ _ _ 0 idle c1 x "abc" eq_refl Hx Hredir eq_refl Hlen
              eq_refl Hmax) as [_ T].
  rewrite T. clear T. exists x, c1. concrete Hx.
  eexists _, _. vm_compute. repeat split.
Defined.

Lemma status_line_must_be_http_1_1_witness :
  starts_with "HTTP/1.1" "HTTP/1.0 200 OK" = false
  /\ exists r,
      fst (request (platform := platform_of old_server) 1 "http://a/" "GET"
                   EmptyString (args_with [] true 10) 0 idle)
      = Returned r
      /\ errorCode r = MissingStatus /\ statusCode r = 0 /\ uploadSize r = 65.
Proof.
  split; [reflexivity|].
  eexists. split.
  - apply (status_line_must_be_http_1_1
             (platform := platform_of old_server) 0 "http://a/" "GET"
             EmptyString (args_with [] true 10) 0 idle
             {| protocol := "http"; host := "a"; path := "/";
                query := EmptyString; port := 80 |}
             EmptyString
             {| servers := old_server; inbound := EmptyString;
                sent := EmptyString |}
             {| servers := old_server;
                inbound := lines ["HTTP/1.0 200 OK"; "Content-Length: 0";
                                  EmptyString];
                sent := EmptyString |}
             {| servers := old_server;
                inbound := lines ["HTTP/1.0 200 OK"; "Content-Length: 0";
                                  EmptyString];
                sent := buildRequest (platform := platform_of old_server)
                                     "GET" "a" "/" EmptyString
                                     (args_with [] true 10) |}
             {| servers := old_server;
                inbound := lines ["Content-Length: 0"; EmptyString];
                sent := buildRequest (platform := platform_of old_server)
                                     "GET" "a" "/" EmptyString
                                     (args_with [] true 10) |}
             EmptyString "HTTP/1.0 200 OK");
      reflexivity.
  - cbn [errorCode statusCode uploadSize mkResponse].
    repeat split.
Defined.

Lemma chunk_size_at_end_of_buffer_witness :
  let x := chunked_exchange (lines bare_sizes) in
  Stream.get_hex_u64 "5" = Stream.Written 5 false
  /\ fst (fst (readChunks (platform := platform_of []) 2
                          (args_with [] true 10) x true EmptyString
                          (x_socket x) idle))
     = inl Undefined.
Proof.
  intros x.
  destruct (chunk_size_at_end_of_buffer (platform := platform_of [])
              0 (args_with [] true 10) x EmptyString
              (conn_with (lines bare_sizes))
              (conn_with (lines ["hello"; "3"; "abc"; "0"; EmptyString]))
              (conn_with (lines [EmptyString; "3"; "abc"; "0"; EmptyString]))
              (conn_with (lines ["3"; "abc"; "0"; EmptyString]))
              (conn_with (lines ["abc"; "0"; EmptyString]))
              idle "5" 5 false "hello" EmptyString "3")
    as [_ T]; try reflexivity.
  - discriminate.
  - vm_compute. discriminate.
  - split; [reflexivity|exact T].
Defined.

End MoreRuns.
